(** * Threat modelling core of autopen2.0

    A shallow embedding of [src/modules/threat_modeling.py] (class
    [ThreatModeling] with its dataclasses [Asset] and [Threat]) and the
    properties of its classifier, threat identifier, risk scorer and
    result store.

    Conventions of the embedding.
    - Python values met in the scan dictionaries are atoms of type [pyval];
      a dictionary that the code only indexes is a [gmap string pyval], a
      dictionary that the code iterates is an association list in insertion
      order.
    - Strings are sequences of 8-bit characters; [str.lower] is modelled on
      ASCII letters.
    - A method body runs in the monad [M]: it threads the object's fields
      and may raise; what a raising body has already appended stays.  The
      lines printed on the console by the handlers are not modelled.
    - A risk score is the product of an integer and the float 1.5 or 1.0,
      a multiple of one half; it is a rational here, which is the float's
      exact value for every integer below 2^52. *)

From Stdlib Require Import ZArith QArith Qminmax String Ascii List Lia DecimalString.
From stdpp Require Import base option list gmap strings.

Local Open Scope Z_scope.
Local Open Scope string_scope.

(** ** Python values *)

Inductive pyval :=
| VNone
| VBool (b : bool)
| VInt (z : Z)
| VStr (s : string).

Inductive exn :=
| KeyError (key : string)
| AttributeError (attr : string)
| TypeError.

Inductive result (A : Type) :=
| Ok (a : A)
| Raise (e : exn).
Arguments Ok {A} a.
Arguments Raise {A} e.

Module Py.

(** [a == b]: numbers compare by value ([True == 1]), strings by content,
    values of unrelated types are unequal. *)
Definition num (v : pyval) : option Z :=
  match v with
  | VBool b => Some (if b then 1 else 0)
  | VInt z => Some z
  | _ => None
  end.

Definition eqb (a b : pyval) : bool :=
  match a, b with
  | VNone, VNone => true
  | VStr s, VStr t => String.eqb s t
  | _, _ =>
      match num a, num b with
      | Some x, Some y => Z.eqb x y
      | _, _ => false
      end
  end.

(** [v in [s1, s2, ...]] for a list of string literals. *)
Definition in_strs (v : pyval) (l : list string) : bool :=
  existsb (fun s => eqb v (VStr s)) l.

(** [x in l] for a list of values. *)
Definition in_list (x : pyval) (l : list pyval) : bool :=
  existsb (fun y => eqb x y) l.

(** Truth value of an object, as tested by [if]. *)
Definition truthy (v : pyval) : bool :=
  match v with
  | VNone => false
  | VBool b => b
  | VInt z => negb (Z.eqb z 0)
  | VStr s => negb (String.eqb s "")
  end.

(** [str(v)], which is what an f-string field [{v}] renders. *)
Definition str (v : pyval) : string :=
  match v with
  | VNone => "None"
  | VBool true => "True"
  | VBool false => "False"
  | VInt z => NilZero.string_of_int (Z.to_int z)
  | VStr s => s
  end.

Definition lower_ascii (c : ascii) : ascii :=
  let n := nat_of_ascii c in
  if (Nat.leb 65 n && Nat.leb n 90)%bool then ascii_of_nat (n + 32) else c.

(** [s.lower()] *)
Fixpoint lower (s : string) : string :=
  match s with
  | EmptyString => EmptyString
  | String c r => String (lower_ascii c) (lower r)
  end.

(** [s.startswith(p)] *)
Fixpoint startswith (p s : string) : bool :=
  match p with
  | EmptyString => true
  | String a p' =>
      match s with
      | EmptyString => false
      | String b s' => (Ascii.eqb a b && startswith p' s')%bool
      end
  end.

(** [needle in hay] for two strings. *)
Fixpoint contains (needle hay : string) : bool :=
  (startswith needle hay ||
   match hay with
   | EmptyString => false
   | String _ r => contains needle r
   end)%bool.

(** [v.lower()]: only strings have the method. *)
Definition lower_of (v : pyval) : result string :=
  match v with
  | VStr s => Ok (lower s)
  | _ => Raise (AttributeError "lower")
  end.

(** [list(set(l))]: one representative per class of [==], the first one
    met.  The iteration order of a Python set is not specified; the
    model lists the representatives in order of first occurrence. *)
Fixpoint dedup (l : list pyval) : list pyval :=
  match l with
  | [] => []
  | x :: r => x :: List.filter (fun y => negb (eqb x y)) (dedup r)
  end.

(** [min(100, x)]: the second argument is returned only when it is
    strictly smaller. *)
Definition min100 (x : Q) : Q :=
  if Qle_bool 100 x then 100%Q else x.

End Py.

(** ** Data model *)

Inductive AssetType :=
| WEB_SERVER
| DATABASE
| FILE_SERVER
| MAIL_SERVER
| DOMAIN_CONTROLLER
| NETWORK_DEVICE.

Inductive ThreatLevel :=
| CRITICAL
| HIGH
| MEDIUM
| LOW.

Definition AssetType_value (t : AssetType) : string :=
  match t with
  | WEB_SERVER => "web_server"
  | DATABASE => "database"
  | FILE_SERVER => "file_server"
  | MAIL_SERVER => "mail_server"
  | DOMAIN_CONTROLLER => "domain_controller"
  | NETWORK_DEVICE => "network_device"
  end.

Definition ThreatLevel_value (l : ThreatLevel) : string :=
  match l with
  | CRITICAL => "critical"
  | HIGH => "high"
  | MEDIUM => "medium"
  | LOW => "low"
  end.

Record Asset := mkAsset {
  a_name : string;
  a_type : AssetType;
  a_value : Z;
  a_exposed : bool;
  a_services : list pyval;
  a_description : string
}.

Record Threat := mkThreat {
  t_name : string;
  t_level : ThreatLevel;
  t_likelihood : Z;
  t_impact : Z;
  t_description : pyval;
  t_affected_assets : list string;
  t_attack_vectors : list pyval
}.

(** A dictionary the code only indexes. *)
Abbreviation dict := (gmap string pyval).

(** ** Threat attributes derived from one finding *)

Definition _determine_threat_level (finding : dict) : result ThreatLevel :=
  match finding !! "severity" with
  | Some v =>
      match Py.lower_of v with
      | Raise e => Raise e
      | Ok severity =>
          if String.eqb severity "critical" then Ok CRITICAL
          else if String.eqb severity "high" then Ok HIGH
          else if String.eqb severity "medium" then Ok MEDIUM
          else Ok LOW
      end
  | None => Ok MEDIUM
  end.

Definition _calculate_likelihood (finding : dict) : Z :=
  let base_score := 5 in
  let base_score :=
    match finding !! "type" with
    | Some ty =>
        if Py.in_strs ty ["rce"; "sqli"; "upload"] then base_score + 3
        else if Py.in_strs ty ["xss"; "csrf"] then base_score + 2
        else base_score
    | None => base_score
    end in
  let base_score :=
    match finding !! "difficulty" with
    | Some d =>
        if Py.eqb d (VStr "easy") then base_score + 2
        else if Py.eqb d (VStr "hard") then base_score - 2
        else base_score
    | None => base_score
    end in
  Z.max 1 (Z.min 10 base_score).

Definition _calculate_impact (finding : dict) : result Z :=
  let base_score := 5 in
  match finding !! "impact" with
  | Some v =>
      match Py.lower_of v with
      | Raise e => Raise e
      | Ok impact =>
          let base_score :=
            if (Py.contains "system" impact || Py.contains "root" impact)%bool
            then base_score + 4
            else if (Py.contains "data" impact
                     || Py.contains "confidential" impact)%bool
            then base_score + 3
            else if Py.contains "user" impact then base_score + 2
            else base_score in
          Ok (Z.max 1 (Z.min 10 base_score))
      end
  | None => Ok (Z.max 1 (Z.min 10 base_score))
  end.

Definition _identify_attack_vectors (finding : dict) : list pyval :=
  let vectors :=
    match finding !! "type" with
    | Some ty =>
        if Py.eqb ty (VStr "rce")
        then [VStr "命令注入"; VStr "远程代码执行"]
        else if Py.eqb ty (VStr "sqli")
        then [VStr "SQL注入"; VStr "数据库攻击"]
        else if Py.eqb ty (VStr "xss")
        then [VStr "跨站脚本"; VStr "客户端攻击"]
        else []
    | None => []
    end in
  let vectors :=
    match finding !! "method" with
    | Some m => (vectors ++ [m])%list
    | None => vectors
    end in
  Py.dedup vectors.

(** ** The result store and the object state *)

(** [_asset_to_dict] and [_threat_to_dict] produce dictionaries with fixed
    keys; they are records here, with the enum rendered by its [value]. *)
Record AssetDict := mkAssetDict {
  ad_name : string;
  ad_type : string;
  ad_value : Z;
  ad_exposed : bool;
  ad_services : list pyval;
  ad_description : string
}.

Record ThreatDict := mkThreatDict {
  td_name : string;
  td_level : string;
  td_likelihood : Z;
  td_impact : Z;
  td_description : pyval;
  td_affected_assets : list string;
  td_attack_vectors : list pyval
}.

Definition _asset_to_dict (asset : Asset) : AssetDict :=
  {| ad_name := a_name asset;
     ad_type := AssetType_value (a_type asset);
     ad_value := a_value asset;
     ad_exposed := a_exposed asset;
     ad_services := a_services asset;
     ad_description := a_description asset |}.

Definition _threat_to_dict (threat : Threat) : ThreatDict :=
  {| td_name := t_name threat;
     td_level := ThreatLevel_value (t_level threat);
     td_likelihood := t_likelihood threat;
     td_impact := t_impact threat;
     td_description := t_description threat;
     td_affected_assets := t_affected_assets threat;
     td_attack_vectors := t_attack_vectors threat |}.

(** One entry of [critical_assets]: name, type, description. *)
Record CriticalAsset := mkCriticalAsset {
  ca_name : string;
  ca_type : string;
  ca_description : string
}.

(** One entry of [high_risk_threats]: name, level, description. *)
Record HighRiskThreat := mkHighRiskThreat {
  hr_name : string;
  hr_level : string;
  hr_description : pyval
}.

Record Report := mkReport {
  exposed_services : list pyval;
  critical_assets : list CriticalAsset;
  high_risk_threats : list HighRiskThreat;
  attack_vectors : list pyval;          (* a Python set *)
  mitigation_suggestions : list string
}.

(** [self.results]: a dictionary that only ever receives these four keys;
    [None] is an absent key. *)
Record Results := mkResults {
  r_assets : option (list AssetDict);
  r_threats : option (list ThreatDict);
  r_risk_scores : option (gmap string Q);
  r_attack_surface : option Report
}.

Record ThreatModeling := mkThreatModeling {
  results : Results;
  assets : list Asset;
  threats : list Threat
}.

(** [ThreatModeling.__init__] *)
Definition init : ThreatModeling :=
  {| results := mkResults None None None None; assets := []; threats := [] |}.

(** ** Method bodies: state and exceptions *)

Definition M (A : Type) : Type := ThreatModeling -> result A * ThreatModeling.

Definition ret {A} (a : A) : M A := fun s => (Ok a, s).

Definition bind {A B} (c : M A) (k : A -> M B) : M B :=
  fun s =>
    match c s with
    | (Ok a, s') => k a s'
    | (Raise e, s') => (Raise e, s')
    end.

Definition raise {A} (e : exn) : M A := fun s => (Raise e, s).

(** [try: c except Exception as e: h e] *)
Definition try_except {A} (c : M A) (h : exn -> M A) : M A :=
  fun s =>
    match c s with
    | (Ok a, s') => (Ok a, s')
    | (Raise e, s') => h e s'
    end.

Definition lift {A} (r : result A) : M A := fun s => (r, s).

Declare Scope py_scope.
Delimit Scope py_scope with py.
Notation "x <- c ;; k" := (bind c (fun x => k))
  (at level 100, c at next level, right associativity) : py_scope.
Notation "c ;;; k" := (bind c (fun _ => k))
  (at level 100, right associativity) : py_scope.
Local Open Scope py_scope.

(** [for x in l: body x] *)
Fixpoint for_each {X} (l : list X) (body : X -> M unit) : M unit :=
  match l with
  | [] => ret tt
  | x :: r => body x ;;; for_each r body
  end.

(** [d[key]] *)
Definition getitem (d : dict) (key : string) : M pyval :=
  match d !! key with
  | Some v => ret v
  | None => raise (KeyError key)
  end.

(** [d.get(key, dflt)] *)
Definition get_or (d : dict) (key : string) (dflt : pyval) : pyval :=
  match d !! key with
  | Some v => v
  | None => dflt
  end.

Definition append_asset (a : Asset) : M unit :=
  fun s => (Ok tt, {| results := results s;
                      assets := (assets s ++ [a])%list;
                      threats := threats s |}).

Definition append_threat (t : Threat) : M unit :=
  fun s => (Ok tt, {| results := results s;
                      assets := assets s;
                      threats := (threats s ++ [t])%list |}).

Definition get_assets : M (list Asset) := fun s => (Ok (assets s), s).
Definition get_threats : M (list Threat) := fun s => (Ok (threats s), s).

Definition set_results (f : Results -> Results) : M unit :=
  fun s => (Ok tt, {| results := f (results s);
                      assets := assets s;
                      threats := threats s |}).

(** ** Scan input *)

(** [{port: {service, version, product}}], in insertion order. *)
Abbreviation PortTable := (list (pyval * dict)).

(** One host entry of the port scan; [protocols] may be absent. *)
Record HostData := mkHostData {
  protocols : option (list (string * PortTable))
}.

(** The value under one tool: the dictionary of its findings, or
    something that is not a dictionary and so has no [get]. *)
Inductive Findings :=
| FindingsDict (fields : dict)
| NotFindings (v : pyval).

(** The value under one service type of the vulnerability scan: a
    dictionary from tool to findings, or something that is not a
    dictionary. *)
Inductive ServiceResults :=
| ToolFindings (tools : list (string * Findings))
| NotADict (v : pyval).

Record WafBypass := mkWafBypass {
  waf_info : option dict
}.

Record ScanResults := mkScanResults {
  port_scan : option (list (string * HostData));
  vuln_scan : option (list (string * ServiceResults));
  waf_bypass : option WafBypass
}.

(** ** Asset classifier *)

(** The body of the innermost loop of [analyze_assets].  Every branch
    condition starts by evaluating [info['service']], so the lookup is
    done once at the top. *)
Definition classify_port (host : string) (port : pyval) (info : dict) : M unit :=
  service <- getitem info "service" ;;
  if Py.in_strs service ["http"; "https"] then
    append_asset
      {| a_name := "Web Server (" ++ host ++ ":" ++ Py.str port ++ ")";
         a_type := WEB_SERVER;
         a_value := 8;
         a_exposed := true;
         a_services := [service];
         a_description :=
           "Web服务器 运行 " ++ Py.str (get_or info "product" (VStr ""))
           ++ " " ++ Py.str (get_or info "version" (VStr "")) |}
  else if Py.in_strs service ["mysql"; "mssql"; "postgresql"; "mongodb"] then
    append_asset
      {| a_name := "Database Server (" ++ host ++ ":" ++ Py.str port ++ ")";
         a_type := DATABASE;
         a_value := 9;
         a_exposed := true;
         a_services := [service];
         a_description :=
           "数据库服务器 运行 " ++ Py.str (get_or info "product" (VStr ""))
           ++ " " ++ Py.str (get_or info "version" (VStr "")) |}
  else if (Py.eqb port (VInt 389)
           || Py.in_strs service ["ldap"; "kerberos"])%bool then
    append_asset
      {| a_name := "Domain Controller (" ++ host ++ ")";
         a_type := DOMAIN_CONTROLLER;
         a_value := 10;
         a_exposed := true;
         a_services := [service];
         a_description := "域控制器" |}
  else ret tt.

Definition classify_host (hd : string * HostData) : M unit :=
  let '(host, data) := hd in
  for_each (default [] (protocols data))
    (fun '(proto, ports) =>
       for_each ports (fun '(port, info) => classify_port host port info)).

Definition analyze_assets_body (scan_results : ScanResults) : M (list Asset) :=
  match port_scan scan_results with
  | Some ps => for_each ps classify_host
  | None => ret tt
  end ;;;
  all <- get_assets ;;
  set_results (fun r => {| r_assets := Some (map _asset_to_dict all);
                           r_threats := r_threats r;
                           r_risk_scores := r_risk_scores r;
                           r_attack_surface := r_attack_surface r |}) ;;;
  get_assets.

(** The handler prints the error on the console and returns [[]]. *)
Definition analyze_assets (scan_results : ScanResults) : M (list Asset) :=
  try_except (analyze_assets_body scan_results) (fun _ => ret []).

(** ** Threat identifier *)

#[global] Instance AssetType_eq_dec : EqDecision AssetType.
Proof. solve_decision. Defined.

#[global] Instance ThreatLevel_eq_dec : EqDecision ThreatLevel.
Proof. solve_decision. Defined.

(** The body of the inner loop of [identify_threats]: the value under
    one tool of one service type.  [findings.get] is looked up first and
    is there only on a dictionary.  The keyword arguments of
    [Threat(...)] are evaluated in the order written; [level] and
    [impact] may raise. *)
Definition threat_of_findings (service_type : string) (findings : Findings) : M unit :=
  match findings with
  | NotFindings _ => raise (AttributeError "get")
  | FindingsDict findings =>
      if Py.truthy (get_or findings "vulnerable" (VBool false)) then
        level <- lift (_determine_threat_level findings) ;;
        impact <- lift (_calculate_impact findings) ;;
        all <- get_assets ;;
        append_threat
          {| t_name := "Vulnerability in " ++ service_type;
             t_level := level;
             t_likelihood := _calculate_likelihood findings;
             t_impact := impact;
             t_description := get_or findings "details" (VStr "未知漏洞");
             t_affected_assets :=
               map a_name
                 (List.filter
                    (fun asset => Py.in_list (VStr service_type) (a_services asset))
                    all);
             t_attack_vectors := _identify_attack_vectors findings |}
      else ret tt
  end.

Definition threats_of_service (sr : string * ServiceResults) : M unit :=
  let '(service_type, res) := sr in
  match res with
  | ToolFindings tools =>
      for_each tools (fun '(tool, findings) =>
                        threat_of_findings service_type findings)
  | NotADict _ => ret tt
  end.

Definition waf_threat (all : list Asset) : Threat :=
  {| t_name := "WAF Bypass Potential";
     t_level := HIGH;
     t_likelihood := 7;
     t_impact := 8;
     t_description := VStr "检测到WAF可能被绕过";
     t_affected_assets :=
       map a_name
         (List.filter (fun asset => bool_decide (a_type asset = WEB_SERVER)) all);
     t_attack_vectors := [VStr "WAF绕过"; VStr "注入攻击"] |}.

Definition waf_phase (scan_results : ScanResults) : M unit :=
  match waf_bypass scan_results with
  | Some wb =>
      let info := default ∅ (waf_info wb) in
      if Py.truthy (get_or info "detected" (VBool false)) then
        all <- get_assets ;;
        append_threat (waf_threat all)
      else ret tt
  | None => ret tt
  end.

Definition vuln_phase (scan_results : ScanResults) : M unit :=
  match vuln_scan scan_results with
  | Some vs => for_each vs threats_of_service
  | None => ret tt
  end.

Definition identify_threats_body (scan_results : ScanResults) : M (list Threat) :=
  vuln_phase scan_results ;;;
  waf_phase scan_results ;;;
  ts <- get_threats ;;
  set_results (fun r => {| r_assets := r_assets r;
                           r_threats := Some (map _threat_to_dict ts);
                           r_risk_scores := r_risk_scores r;
                           r_attack_surface := r_attack_surface r |}) ;;;
  get_threats.

Definition identify_threats (scan_results : ScanResults) : M (list Threat) :=
  try_except (identify_threats_body scan_results) (fun _ => ret []).

(** ** Risk scorer *)

(** [sum(...)] over integers. *)
Definition py_sum (l : list Z) : Z := fold_left Z.add l 0.

(** [name in l] for a list of strings. *)
Definition name_in (name : string) (l : list string) : bool :=
  existsb (String.eqb name) l.

(** The body of the loop of [calculate_risk_scores] for one asset.  The
    product with the float multiplier is a multiple of one half; it is
    kept exactly, as a rational. *)
Definition asset_risk (ts : list Threat) (asset : Asset) : Q :=
  let base_score := a_value asset * 10 in
  let affecting_threats :=
    List.filter (fun threat => name_in (a_name asset) (t_affected_assets threat)) ts in
  let threat_score :=
    match affecting_threats with
    | [] => 0
    | _ => py_sum (map (fun threat => t_likelihood threat * t_impact threat)
                       affecting_threats)
    end in
  let exposure_multiplier := if a_exposed asset then (3 # 2)%Q else 1%Q in
  let final_score := (inject_Z (base_score + threat_score) * exposure_multiplier)%Q in
  Py.min100 final_score.

(** The dictionary built by the loop: a later asset of the same name
    overwrites the entry of an earlier one. *)
Definition risk_scores_of (all : list Asset) (ts : list Threat) : gmap string Q :=
  fold_left (fun scores asset => <[a_name asset := asset_risk ts asset]> scores)
            all ∅.

Definition calculate_risk_scores_body : M (gmap string Q) :=
  all <- get_assets ;;
  ts <- get_threats ;;
  let risk_scores := risk_scores_of all ts in
  set_results (fun r => {| r_assets := r_assets r;
                           r_threats := r_threats r;
                           r_risk_scores := Some risk_scores;
                           r_attack_surface := r_attack_surface r |}) ;;;
  ret risk_scores.

Definition calculate_risk_scores : M (gmap string Q) :=
  try_except calculate_risk_scores_body (fun _ => ret ∅).

(** ** Attack-surface summarizer *)

Definition service_suggestions (service : pyval) : list string :=
  if Py.in_strs service ["http"; "https"] then
    ["实施Web应用防火墙(WAF)"; "启用HTTPS并配置安全headers"; "实施输入验证和输出编码"]
  else if Py.in_strs service ["mysql"; "mssql"; "postgresql"] then
    ["限制数据库服务器访问"; "实施强密码策略"; "定期备份数据库"]
  else [].

(** ['注入' in vector] needs a string on the right. *)
Definition vector_suggestions (vector : pyval) : result (list string) :=
  match vector with
  | VStr v =>
      if Py.contains "注入" v then
        Ok ["使用参数化查询"; "实施输入验证"; "最小权限原则"]
      else if Py.contains "跨站" v then
        Ok ["实施CSP策略"; "使用安全的Cookie标志"; "输入验证和输出编码"]
      else Ok []
  | _ => Raise TypeError
  end.

Fixpoint all_vector_suggestions (vs : list pyval) : result (list string) :=
  match vs with
  | [] => Ok []
  | v :: r =>
      match vector_suggestions v with
      | Raise e => Raise e
      | Ok here =>
          match all_vector_suggestions r with
          | Raise e => Raise e
          | Ok rest => Ok (here ++ rest)%list
          end
      end
  end.

Definition _generate_mitigation_suggestions
    (exposed : list pyval) (vectors : list pyval) : result (list string) :=
  let suggestions := concat (map service_suggestions exposed) in
  match all_vector_suggestions vectors with
  | Raise e => Raise e
  | Ok more => Ok (remove_dups (suggestions ++ more)%list)
  end.

Definition is_high_risk (threat : Threat) : bool :=
  bool_decide (t_level threat = CRITICAL) || bool_decide (t_level threat = HIGH).

Definition report_exposed_services (all : list Asset) : list pyval :=
  concat (map a_services (List.filter a_exposed all)).

Definition report_critical_assets (all : list Asset) : list CriticalAsset :=
  map (fun asset => {| ca_name := a_name asset;
                       ca_type := AssetType_value (a_type asset);
                       ca_description := a_description asset |})
      (List.filter (fun asset => Z.leb 8 (a_value asset)) all).

Definition generate_attack_surface_report_body : M (option Report) :=
  all <- get_assets ;;
  ts <- get_threats ;;
  let exposed := report_exposed_services all in
  let critical := report_critical_assets all in
  let high := List.filter is_high_risk ts in
  let vectors := Py.dedup (concat (map t_attack_vectors high)) in
  suggestions <- lift (_generate_mitigation_suggestions exposed vectors) ;;
  let report :=
    {| exposed_services := exposed;
       critical_assets := critical;
       high_risk_threats :=
         map (fun threat => {| hr_name := t_name threat;
                               hr_level := ThreatLevel_value (t_level threat);
                               hr_description := t_description threat |}) high;
       attack_vectors := vectors;
       mitigation_suggestions := suggestions |} in
  set_results (fun r => {| r_assets := r_assets r;
                           r_threats := r_threats r;
                           r_risk_scores := r_risk_scores r;
                           r_attack_surface := Some report |}) ;;;
  ret (Some report).

(** On an error the method returns [{}], here [None]. *)
Definition generate_attack_surface_report : M (option Report) :=
  try_except generate_attack_surface_report_body (fun _ => ret None).

(** ** Exporter *)

Section Exporter.

(** [json.dump] of the standard library: the text it writes for a result
    store, or the error it raises. *)
Variable json_dump : Results -> result string.

(** [export_results]: the document written to [filepath] is the
    rendering of [self.results]; an error is printed and swallowed. *)
Definition export_results (s : ThreatModeling) : option string :=
  match json_dump (results s) with
  | Ok doc => Some doc
  | Raise _ => None
  end.

End Exporter.

(** ** Runs of the object *)

Inductive call :=
| AnalyzeAssets (scan_results : ScanResults)
| IdentifyThreats (scan_results : ScanResults)
| CalculateRiskScores
| GenerateAttackSurfaceReport.

Definition after (c : call) (s : ThreatModeling) : ThreatModeling :=
  match c with
  | AnalyzeAssets sr => snd (analyze_assets sr s)
  | IdentifyThreats sr => snd (identify_threats sr s)
  | CalculateRiskScores => snd (calculate_risk_scores s)
  | GenerateAttackSurfaceReport => snd (generate_attack_surface_report s)
  end.

(** The states an object can be in: fresh, or after any sequence of
    method calls. *)
Inductive reachable : ThreatModeling -> Prop :=
| reachable_init : reachable init
| reachable_call c s : reachable s -> reachable (after c s).

(** * Vocabulary of the statements *)

Definition PortRecord : Type := string * pyval * dict.

Definition host_records (hd : string * HostData) : list PortRecord :=
  let '(host, data) := hd in
  flat_map (fun '(proto, ports) =>
              map (fun '(port, info) => (host, port, info)) ports)
           (default [] (protocols data)).

Definition records_of (scan_results : ScanResults) : list PortRecord :=
  match port_scan scan_results with
  | Some ps => flat_map host_records ps
  | None => []
  end.

Definition classify_record (r : PortRecord) : M unit :=
  let '(host, port, info) := r in classify_port host port info.

(** What one record contributes to the inventory: at most one asset, or
    the [KeyError] of [info['service']]. *)
Definition assets_of_record (r : PortRecord) : result (list Asset) :=
  let '(host, port, info) := r in
  match info !! "service" with
  | None => Raise (KeyError "service")
  | Some service =>
      Ok (snd (classify_port host port info init)).(assets)
  end.

Definition add_assets (l : list Asset) (s : ThreatModeling) : ThreatModeling :=
  {| results := results s; assets := (assets s ++ l)%list; threats := threats s |}.

Definition has_service (r : PortRecord) : Prop :=
  is_Some (snd r !! "service").

Definition lacks_service (r : PortRecord) : Prop :=
  snd r !! "service" = None.

(** The assets contributed by the well-formed records of a list. *)
Definition assets_of (rs : list PortRecord) : list Asset :=
  flat_map (fun r => match assets_of_record r with
                     | Ok l => l
                     | Raise _ => []
                     end) rs.

Definition set_r_assets (l : list AssetDict) (r : Results) : Results :=
  {| r_assets := Some l;
     r_threats := r_threats r;
     r_risk_scores := r_risk_scores r;
     r_attack_surface := r_attack_surface r |}.

(** The asset type and value announced by the prefix of a name. *)
Definition kind_of_name (name : string) : option (AssetType * Z) :=
  if Py.startswith "Web Server (" name then Some (WEB_SERVER, 8)
  else if Py.startswith "Database Server (" name then Some (DATABASE, 9)
  else if Py.startswith "Domain Controller (" name then Some (DOMAIN_CONTROLLER, 10)
  else None.

Definition classified (a : Asset) : Prop :=
  kind_of_name (a_name a) = Some (a_type a, a_value a) /\ a_exposed a = true.

Definition add_threats (l : list Threat) (s : ThreatModeling) : ThreatModeling :=
  {| results := results s; assets := assets s; threats := (threats s ++ l)%list |}.

Definition in_range (t : Threat) : Prop :=
  1 <= t_likelihood t <= 10 /\ 1 <= t_impact t <= 10.

Definition vuln_name (t : Threat) : Prop :=
  exists service_type, t_name t = "Vulnerability in " ++ service_type.

Definition waf_detected (scan_results : ScanResults) : bool :=
  match waf_bypass scan_results with
  | Some wb => Py.truthy (get_or (default ∅ (waf_info wb)) "detected" (VBool false))
  | None => false
  end.

Definition set_r_threats (l : list ThreatDict) (r : Results) : Results :=
  {| r_assets := r_assets r;
     r_threats := Some l;
     r_risk_scores := r_risk_scores r;
     r_attack_surface := r_attack_surface r |}.

(** The sum of the specification: over all threats that list the name,
    likelihood times impact. *)
Definition spec_threat_score (ts : list Threat) (name : string) : Z :=
  foldr (fun t acc =>
           if decide (name ∈ t_affected_assets t)
           then t_likelihood t * t_impact t + acc
           else acc) 0 ts.

(** [min(100, (value * 10 + S) * m)] of the specification. *)
Definition spec_score (ts : list Threat) (a : Asset) : Q :=
  Qmin 100 (inject_Z (a_value a * 10 + spec_threat_score ts (a_name a))
            * (if a_exposed a then 3 # 2 else 1))%Q.

Definition set_r_risk_scores (m : gmap string Q) (r : Results) : Results :=
  {| r_assets := r_assets r;
     r_threats := r_threats r;
     r_risk_scores := Some m;
     r_attack_surface := r_attack_surface r |}.

Definition set_r_attack_surface (rep : Report) (r : Results) : Results :=
  {| r_assets := r_assets r;
     r_threats := r_threats r;
     r_risk_scores := r_risk_scores r;
     r_attack_surface := Some rep |}.

Definition report_vectors (ts : list Threat) : list pyval :=
  Py.dedup (concat (map t_attack_vectors (List.filter is_high_risk ts))).

Record wf (s : ThreatModeling) : Prop := mk_wf {
  wf_assets : Forall classified (assets s);
  wf_threats : Forall in_range (threats s);
  wf_stored : forall l, r_assets (results s) = Some l ->
                        (length l <= length (assets s))%nat
}.

#[global] Instance pyval_eq_dec : EqDecision pyval.
Proof. solve_decision. Defined.

Definition clamp (lo hi x : Z) : Z :=
  if (x <? lo)%Z then lo else if (hi <? x)%Z then hi else x.

(** The adjustment for the type field, as the specification words it. *)
Definition spec_type_adjustment (finding : dict) : Z :=
  match finding !! "type" with
  | Some ty =>
      if decide (ty ∈ [VStr "rce"; VStr "sqli"; VStr "upload"]) then 3
      else if decide (ty ∈ [VStr "xss"; VStr "csrf"]) then 2
      else 0
  | None => 0
  end.

(** The adjustment for the difficulty field, as the specification words it. *)
Definition spec_difficulty_adjustment (finding : dict) : Z :=
  match finding !! "difficulty" with
  | Some d =>
      if decide (d = VStr "easy") then 2
      else if decide (d = VStr "hard") then -2
      else 0
  | None => 0
  end.

Definition spec_likelihood (finding : dict) : Z :=
  clamp 1 10 (5 + spec_type_adjustment finding + spec_difficulty_adjustment finding).

(** The level as the specification words it: the severity name read
    without regard to case, [medium] when the field is absent or its
    value is not one of the four names. *)
Definition spec_threat_level (finding : dict) : ThreatLevel :=
  match finding !! "severity" with
  | Some (VStr s) =>
      let name := Py.lower s in
      if decide (name = "critical") then CRITICAL
      else if decide (name = "high") then HIGH
      else if decide (name = "medium") then MEDIUM
      else if decide (name = "low") then LOW
      else MEDIUM
  | _ => MEDIUM
  end.

(** The level the code assigns to a severity string. *)
Definition level_of_severity (s : string) : ThreatLevel :=
  let name := Py.lower s in
  if decide (name = "critical") then CRITICAL
  else if decide (name = "high") then HIGH
  else if decide (name = "medium") then MEDIUM
  else LOW.

Definition info_severity_finding : dict :=
  <["vulnerable" := VBool true]> (<["severity" := VStr "info"]> ∅).

Definition single_record_scan (host proto : string) (port : pyval) (info : dict)
    (vs : option (list (string * ServiceResults))) (wb : option WafBypass)
  : ScanResults :=
  {| port_scan := Some [(host, {| protocols := Some [(proto, [(port, info)])] |})];
     vuln_scan := vs;
     waf_bypass := wb |}.

(** [t'] is [t] with its likelihood and its impact possibly raised. *)
Record reweighted (t t' : Threat) : Prop := mk_reweighted {
  rw_name : t_name t' = t_name t;
  rw_level : t_level t' = t_level t;
  rw_description : t_description t' = t_description t;
  rw_affected : t_affected_assets t' = t_affected_assets t;
  rw_vectors : t_attack_vectors t' = t_attack_vectors t;
  rw_likelihood : t_likelihood t <= t_likelihood t';
  rw_impact : t_impact t <= t_impact t'
}.

Definition numeric_severity_scan : ScanResults :=
  {| port_scan := None;
     vuln_scan :=
       Some [("web_80",
              ToolFindings
                [("nikto", FindingsDict (<["vulnerable" := VBool true]>
                                           (<["severity" := VInt 3]> ∅)))])];
     waf_bypass :=
       Some {| waf_info := Some (<["detected" := VBool true]> ∅) |} |}.

Definition one_host_scan (host : string) (ports : PortTable) : ScanResults :=
  {| port_scan := Some [(host, {| protocols := Some [("tcp", ports)] |})];
     vuln_scan := None;
     waf_bypass := None |}.

Definition https_record : dict := <["service" := VStr "https"]> ∅.
Definition ldap_record : dict := <["service" := VStr "ldap"]> ∅.
(** A record without its service key. *)
Definition nameless_record : dict := <["version" := VStr "1.0"]> ∅.

Definition batch_with_malformed : ScanResults :=
  one_host_scan "10.0.0.5"
    [(VInt 443, https_record); (VInt 8080, nameless_record); (VInt 636, ldap_record)].

Definition batch_without_malformed : ScanResults :=
  one_host_scan "10.0.0.5" [(VInt 443, https_record); (VInt 636, ldap_record)].

(** A vulnerability scan with one positive finding and no other field,
    under one service type. *)
Definition minimal_finding_scan (service_type : string) : ScanResults :=
  {| port_scan := None;
     vuln_scan :=
       Some [(service_type,
              ToolFindings
                [("scanner", FindingsDict (<["vulnerable" := VBool true]> ∅))])];
     waf_bypass := None |}.

Definition critical_entry (a : Asset) : CriticalAsset :=
  {| ca_name := a_name a;
     ca_type := AssetType_value (a_type a);
     ca_description := a_description a |}.

Definition sample_findings : dict :=
  <["vulnerable" := VBool true]>
    (<["severity" := VStr "critical"]>
       (<["type" := VStr "rce"]> (<["difficulty" := VStr "easy"]> ∅))).

Definition sample_scan : ScanResults :=
  {| port_scan :=
       Some [("10.0.0.5",
              {| protocols := Some [("tcp", [(VInt 443, https_record)])] |})];
     vuln_scan :=
       Some [("https", ToolFindings [("nikto", FindingsDict sample_findings)])];
     waf_bypass := Some {| waf_info := Some (<["detected" := VBool true]> ∅) |} |}.

Definition sample_inventory : ThreatModeling :=
  after (AnalyzeAssets sample_scan) init.

Definition sample_state : ThreatModeling :=
  after (IdentifyThreats sample_scan) sample_inventory.

Definition sample_after_findings : ThreatModeling :=
  snd (vuln_phase sample_scan sample_inventory).

Definition sample_asset : Asset :=
  {| a_name := "Web Server (10.0.0.5:443)";
     a_type := WEB_SERVER;
     a_value := 8;
     a_exposed := true;
     a_services := [VStr "https"];
     a_description := "Web服务器 运行  " |}.

Definition sample_threat (likelihood impact : Z) : Threat :=
  {| t_name := "Vulnerability in https";
     t_level := CRITICAL;
     t_likelihood := likelihood;
     t_impact := impact;
     t_description := VStr "未知漏洞";
     t_affected_assets := ["Web Server (10.0.0.5:443)"];
     t_attack_vectors := [] |}.

Definition state_with (ts : list Threat) : ThreatModeling :=
  {| results := results init; assets := [sample_asset]; threats := ts |}.

(** The mapping of the scorer is keyed by name: the assets of the
    inventory that carry the name of [a] have its value and its
    exposure. *)
Definition name_settles_score (all : list Asset) (a : Asset) : Prop :=
  forall b, b ∈ all -> a_name b = a_name a ->
            a_value b = a_value a /\ a_exposed b = a_exposed a.

(** An inventory and a threat list filled in by hand: a mail server of
    value 5 that is not exposed and a router of value 2 that is; one
    threat on the mail server, one on the router and one on neither. *)
Definition mail_server : Asset :=
  {| a_name := "Mail Server (10.0.0.9)";
     a_type := MAIL_SERVER;
     a_value := 5;
     a_exposed := false;
     a_services := [VStr "smtp"];
     a_description := "" |}.

Definition router : Asset :=
  {| a_name := "Router (10.0.0.1)";
     a_type := NETWORK_DEVICE;
     a_value := 2;
     a_exposed := true;
     a_services := [VStr "snmp"];
     a_description := "" |}.

Definition threat_on (names : list string) (likelihood impact : Z) : Threat :=
  {| t_name := "Vulnerability in smtp";
     t_level := LOW;
     t_likelihood := likelihood;
     t_impact := impact;
     t_description := VStr "未知漏洞";
     t_affected_assets := names;
     t_attack_vectors := [] |}.

Definition hand_made_state : ThreatModeling :=
  {| results := results init;
     assets := [mail_server; router];
     threats := [threat_on ["Mail Server (10.0.0.9)"] 3 4;
                 threat_on ["Router (10.0.0.1)"; "Mail Server (10.0.0.9)"] 2 5;
                 threat_on [] 9 9] |}.

(** * Vocabulary of the further properties *)

(** ** Findings of a vulnerability scan, in the order the loops visit them *)

(** The value under one tool with the service type it is filed under. *)
Definition FindingRecord : Type := string * Findings.

Definition service_findings (sr : string * ServiceResults) : list FindingRecord :=
  let '(service_type, res) := sr in
  match res with
  | ToolFindings tools => map (fun '(tool, findings) => (service_type, findings)) tools
  | NotADict _ => []
  end.

Definition findings_of (scan_results : ScanResults) : list FindingRecord :=
  match vuln_scan scan_results with
  | Some vs => flat_map service_findings vs
  | None => []
  end.

Definition threat_of_record (r : FindingRecord) : M unit :=
  threat_of_findings (fst r) (snd r).

(** What the value under one tool contributes to the threat list when
    the inventory is [all]: at most one threat, or the error of a value
    that has no [get] or of a field that is not a string. *)
Definition threats_of_record (all : list Asset) (r : FindingRecord)
  : result (list Threat) :=
  let '(outcome, s) :=
    threat_of_record r {| results := results init; assets := all; threats := [] |} in
  match outcome with
  | Ok _ => Ok (threats s)
  | Raise e => Raise e
  end.

Definition is_ok {A} (r : result A) : Prop :=
  match r with Ok _ => True | Raise _ => False end.

(** The threats contributed by the findings of a list that raise no error. *)
Definition threats_of (all : list Asset) (rs : list FindingRecord) : list Threat :=
  flat_map (fun r => match threats_of_record all r with
                     | Ok l => l
                     | Raise _ => []
                     end) rs.

(** The value is a dictionary, so [findings.get] is there. *)
Definition has_get (r : FindingRecord) : bool :=
  match snd r with
  | FindingsDict _ => true
  | NotFindings _ => false
  end.

(** The value is a dictionary of findings marked vulnerable. *)
Definition vulnerable (r : FindingRecord) : bool :=
  match snd r with
  | FindingsDict findings => Py.truthy (get_or findings "vulnerable" (VBool false))
  | NotFindings _ => false
  end.

(** Every name a threat lists is the name of an asset of the inventory. *)
Definition references_known (all : list Asset) (t : Threat) : Prop :=
  forall name, name ∈ t_affected_assets t -> exists a, a ∈ all /\ a_name a = name.

(** No two entries are equal in the sense of [==]. *)
Fixpoint py_distinct (l : list pyval) : Prop :=
  match l with
  | [] => True
  | x :: r => Py.in_list x r = false /\ py_distinct r
  end.

Definition is_str (v : pyval) : bool :=
  match v with VStr _ => true | _ => false end.

(** * The port scanner ([src/modules/port_scanner.py])

    The [nmap] library is outside the repository: what it answers to one
    scan is a value of type [NmapAnswer]. *)

(** [d[key] = v] on a dictionary kept in insertion order: an existing key
    keeps its place. *)
Fixpoint dict_set {V} (key : string) (v : V) (d : list (string * V))
  : list (string * V) :=
  match d with
  | [] => [(key, v)]
  | (k, w) :: r =>
      if String.eqb k key then (k, v) :: r else (k, w) :: dict_set key v r
  end.

(** The same for a dictionary keyed by port numbers. *)
Fixpoint port_set (port : pyval) (v : dict) (t : PortTable) : PortTable :=
  match t with
  | [] => [(port, v)]
  | (k, w) :: r =>
      if Py.eqb k port then (k, v) :: r else (k, w) :: port_set port v r
  end.

(** What [nmap] knows of one host: [nm[host].state()] and, for each
    protocol of [all_protocols()], the ports with their [port_info]. *)
Record NmapHost := mkNmapHost {
  nh_state : pyval;
  nh_protocols : list (string * list (pyval * dict))
}.

(** The hosts of [all_hosts()] after [nm.scan], or the error it raised. *)
Definition NmapAnswer : Type := result (list (string * NmapHost)).

(** One entry of [PortScanner.results]. *)
Record ScannedHost := mkScannedHost {
  sh_state : pyval;
  sh_protocols : list (string * PortTable)
}.

(** [PortScanner.results] *)
Definition ScannerResults : Type := list (string * ScannedHost).

(** The record stored for one port; [port_info['state']] is evaluated
    first and may raise. *)
Definition scan_port (port_info : dict) : result dict :=
  match port_info !! "state" with
  | None => Raise (KeyError "state")
  | Some st =>
      Ok (<["state" := st]>
            (<["service" := get_or port_info "name" (VStr "")]>
               (<["version" := get_or port_info "version" (VStr "")]>
                  (<["product" := get_or port_info "product" (VStr "")]> ∅))))
  end.

(** The loop over the ports of one protocol, filling the table that was
    just created for it. *)
Fixpoint scan_ports (ports : list (pyval * dict)) (table : PortTable)
  : result unit * PortTable :=
  match ports with
  | [] => (Ok tt, table)
  | (port, port_info) :: rest =>
      match scan_port port_info with
      | Raise e => (Raise e, table)
      | Ok record => scan_ports rest (port_set port record table)
      end
  end.

(** The loop over the protocols of one host. *)
Fixpoint scan_protocols (protos : list (string * list (pyval * dict)))
    (tables : list (string * PortTable))
  : result unit * list (string * PortTable) :=
  match protos with
  | [] => (Ok tt, tables)
  | (proto, ports) :: rest =>
      let '(outcome, table) := scan_ports ports [] in
      let tables := dict_set proto table tables in
      match outcome with
      | Ok _ => scan_protocols rest tables
      | Raise e => (Raise e, tables)
      end
  end.

(** The loop over the hosts; the entry of a host is replaced as a whole. *)
Fixpoint scan_hosts (hosts : list (string * NmapHost)) (results : ScannerResults)
  : result unit * ScannerResults :=
  match hosts with
  | [] => (Ok tt, results)
  | (host, nh) :: rest =>
      let '(outcome, tables) := scan_protocols (nh_protocols nh) [] in
      let results :=
        dict_set host {| sh_state := nh_state nh; sh_protocols := tables |} results in
      match outcome with
      | Ok _ => scan_hosts rest results
      | Raise e => (Raise e, results)
      end
  end.

(** One attempt of [scan]: the handler prints and raises again. *)
Definition scan_attempt (answer : NmapAnswer) (results : ScannerResults)
  : result ScannerResults * ScannerResults :=
  match answer with
  | Raise e => (Raise e, results)
  | Ok hosts =>
      let '(outcome, results) := scan_hosts hosts results in
      match outcome with
      | Ok _ => (Ok results, results)
      | Raise e => (Raise e, results)
      end
  end.

(** [scan] under [@retry(tries=3, delay=2)]: up to three attempts, each
    with the answer [nmap] gives at that time; the error of the third is
    the error of the call. *)
Definition scan (first second third : NmapAnswer) (results : ScannerResults)
  : result ScannerResults * ScannerResults :=
  match scan_attempt first results with
  | (Ok r, results) => (Ok r, results)
  | (Raise _, results) =>
      match scan_attempt second results with
      | (Ok r, results) => (Ok r, results)
      | (Raise _, results) => scan_attempt third results
      end
  end.

(** One entry of a list of [get_open_ports]. *)
Record OpenPort := mkOpenPort {
  op_port : pyval;
  op_protocol : string;
  op_service : pyval
}.

Fixpoint open_in_table (proto : string) (table : PortTable) : result (list OpenPort) :=
  match table with
  | [] => Ok []
  | (port, info) :: rest =>
      match info !! "state" with
      | None => Raise (KeyError "state")
      | Some st =>
          if Py.eqb st (VStr "open") then
            match info !! "service" with
            | None => Raise (KeyError "service")
            | Some service =>
                match open_in_table proto rest with
                | Raise e => Raise e
                | Ok l => Ok ({| op_port := port; op_protocol := proto;
                                 op_service := service |} :: l)
                end
            end
          else open_in_table proto rest
      end
  end.

Fixpoint open_in_host (tables : list (string * PortTable)) : result (list OpenPort) :=
  match tables with
  | [] => Ok []
  | (proto, table) :: rest =>
      match open_in_table proto table with
      | Raise e => Raise e
      | Ok here =>
          match open_in_host rest with
          | Raise e => Raise e
          | Ok l => Ok (here ++ l)%list
          end
      end
  end.

(** [get_open_ports]; it has no handler, an error reaches the caller. *)
Fixpoint get_open_ports (results : ScannerResults)
  : result (list (string * list OpenPort)) :=
  match results with
  | [] => Ok []
  | (host, sh) :: rest =>
      match open_in_host (sh_protocols sh) with
      | Raise e => Raise e
      | Ok here =>
          match get_open_ports rest with
          | Raise e => Raise e
          | Ok l => Ok ((host, here) :: l)
          end
      end
  end.

(** The states of a scanner: fresh, or after any number of scans. *)
Inductive scanned : ScannerResults -> Prop :=
| scanned_init : scanned []
| scanned_scan first second third results :
    scanned results -> scanned (snd (scan first second third results)).

(** The scanner's results as the [port_scan] entry of the scan results
    handed to the threat model. *)
Definition port_scan_of (results : ScannerResults) : list (string * HostData) :=
  map (fun '(host, sh) => (host, {| protocols := Some (sh_protocols sh) |})) results.

Definition with_port_scan (results : ScannerResults) (rest : ScanResults) : ScanResults :=
  {| port_scan := Some (port_scan_of results);
     vuln_scan := vuln_scan rest;
     waf_bypass := waf_bypass rest |}.

(** A stored record has the two keys its readers index. *)
Definition complete_record (info : dict) : Prop :=
  is_Some (info !! "state") /\ is_Some (info !! "service").

Definition complete_tables (tables : list (string * PortTable)) : Prop :=
  Forall (fun pt => Forall (fun pi => complete_record (snd pi)) (snd pt)) tables.

Definition complete_results (results : ScannerResults) : Prop :=
  Forall (fun hs => complete_tables (sh_protocols (snd hs))) results.

(** The entries [get_open_ports] is meant to list for one host: the
    records whose state is [open], in the order of the tables. *)
Definition open_records (tables : list (string * PortTable)) : list OpenPort :=
  flat_map
    (fun '(proto, table) =>
       map (fun '(port, info) =>
              {| op_port := port; op_protocol := proto;
                 op_service := default VNone (info !! "service") |})
           (List.filter
              (fun '(port, info) =>
                 Py.eqb (default VNone (info !! "state")) (VStr "open"))
              table))
    tables.

(** * The vulnerability scanner ([src/modules/vuln_scanner.py]) *)

(** What [scan_all] stores under one label: for a web port the
    dictionary from tool to findings built by [scan_web_service], for
    port 445 the findings of [check_smb_vuln] themselves. *)
Inductive VulnEntry :=
| WebEntry (tools : list (string * dict))
| SmbEntry (findings : dict).

(** [VulnScanner.results] *)
Definition VulnResults : Type := list (string * VulnEntry).

Section VulnScanner.

(** [self.target] *)
Variable target : string.

(** The three tools run external programs; each is taken as the
    dictionary it returns for its argument, restricted to the fields
    with atomic values. *)
Variable run_nikto : Z -> dict.
Variable run_sqlmap : string -> dict.
Variable check_smb_vuln : dict.

Definition scan_web_service (port : Z) : list (string * dict) :=
  let results := dict_set "nikto" (run_nikto port) [] in
  let target_url := "http://" ++ target ++ ":" ++ Py.str (VInt port) in
  fold_left
    (fun results path =>
       dict_set ("sqlmap_" ++ path) (run_sqlmap (target_url ++ path)) results)
    ["/admin"; "/login"; "/wp-admin"; "/phpmyadmin"] results.

(** The body of the loop of [scan_all] for one port. *)
Definition scan_one (results : VulnResults) (port : Z) : VulnResults :=
  if existsb (Z.eqb port) [80; 443; 8080] then
    dict_set ("web_" ++ Py.str (VInt port)) (WebEntry (scan_web_service port)) results
  else if (port =? 445)%Z then
    dict_set "smb" (SmbEntry check_smb_vuln) results
  else results.

(** [scan_all] on the ports of [self.ports]. *)
Definition scan_all (ports : list Z) (results : VulnResults) : VulnResults :=
  fold_left scan_one ports results.

End VulnScanner.

(** What the scanner stored under one label, as the readers of
    [scan_results['vuln_scan']] take it: a dictionary whose values are
    looked at as findings.  For a web port the values are the findings of
    the tools; for port 445 they are the fields of the findings of
    [check_smb_vuln], a truth value and a text, neither of which is a
    dictionary.  The fields are listed by key; the readers stop at the
    first of them, whichever it is. *)
Definition service_results_of (entry : VulnEntry) : ServiceResults :=
  match entry with
  | WebEntry tools =>
      ToolFindings (map (fun '(tool, findings) => (tool, FindingsDict findings)) tools)
  | SmbEntry findings =>
      ToolFindings (map (fun '(key, v) => (key, NotFindings v)) (map_to_list findings))
  end.

(** The scanner's results as the [vuln_scan] entry of the scan results
    handed to the threat model and to the report. *)
Definition vuln_scan_of (results : VulnResults) : list (string * ServiceResults) :=
  map (fun '(label, entry) => (label, service_results_of entry)) results.

Definition with_vuln_scan (results : VulnResults) (rest : ScanResults) : ScanResults :=
  {| port_scan := port_scan rest;
     vuln_scan := Some (vuln_scan_of results);
     waf_bypass := waf_bypass rest |}.

(** The service names under which the classifier files a web server or
    a database. *)
Definition modelled_service_names : list string :=
  ["http"; "https"; "mysql"; "mssql"; "postgresql"; "mongodb"].

(** A classified asset together with what its type says of its service. *)
Definition typed_by_service (a : Asset) : Prop :=
  classified a
  /\ (a_type a <> DOMAIN_CONTROLLER ->
      exists v, a_services a = [v] /\ Py.in_strs v modelled_service_names = true).

(** * The executive summary of the report
      ([src/modules/report_generator.py], [_format_executive_summary_html]) *)

(** The errors of the summary: those of the dictionaries and strings, and
    the division by zero. *)
Inductive report_exn :=
| PyError (e : exn)
| ZeroDivisionError.

Inductive outcome (A : Type) :=
| Done (a : A)
| Failed (e : report_exn).
Arguments Done {A} a.
Arguments Failed {A} e.

(** [vuln_count]: a dictionary with the four keys [critical], [high],
    [medium] and [low]. *)
Record VulnCount := mkVulnCount {
  vc_critical : Z;
  vc_high : Z;
  vc_medium : Z;
  vc_low : Z
}.

(** [vuln_count[severity] += 1] *)
Definition count_severity (severity : string) (c : VulnCount) : outcome VulnCount :=
  if String.eqb severity "critical" then
    Done {| vc_critical := vc_critical c + 1; vc_high := vc_high c;
            vc_medium := vc_medium c; vc_low := vc_low c |}
  else if String.eqb severity "high" then
    Done {| vc_critical := vc_critical c; vc_high := vc_high c + 1;
            vc_medium := vc_medium c; vc_low := vc_low c |}
  else if String.eqb severity "medium" then
    Done {| vc_critical := vc_critical c; vc_high := vc_high c;
            vc_medium := vc_medium c + 1; vc_low := vc_low c |}
  else if String.eqb severity "low" then
    Done {| vc_critical := vc_critical c; vc_high := vc_high c;
            vc_medium := vc_medium c; vc_low := vc_low c + 1 |}
  else Failed (PyError (KeyError severity)).

(** The body of the counting loop for the value under one tool. *)
Definition count_finding (findings : Findings) (c : VulnCount) : outcome VulnCount :=
  match findings with
  | NotFindings _ => Failed (PyError (AttributeError "get"))
  | FindingsDict findings =>
      if Py.truthy (get_or findings "vulnerable" (VBool false)) then
        match Py.lower_of (get_or findings "severity" (VStr "medium")) with
        | Raise e => Failed (PyError e)
        | Ok severity => count_severity severity c
        end
      else Done c
  end.

Fixpoint count_tools (tools : list (string * Findings)) (c : VulnCount)
  : outcome VulnCount :=
  match tools with
  | [] => Done c
  | (tool, findings) :: rest =>
      match count_finding findings c with
      | Failed e => Failed e
      | Done c => count_tools rest c
      end
  end.

Fixpoint count_services (vs : list (string * ServiceResults)) (c : VulnCount)
  : outcome VulnCount :=
  match vs with
  | [] => Done c
  | (service_type, ToolFindings tools) :: rest =>
      match count_tools tools c with
      | Failed e => Failed e
      | Done c => count_services rest c
      end
  | (service_type, NotADict _) :: rest => count_services rest c
  end.

(** [sum(d.values())].  The floats are added in the order of the
    dictionary; their exact sum does not depend on it. *)
Definition values_total (scores : gmap string Q) : Q :=
  foldr Qplus 0%Q (map snd (map_to_list scores)).

(** The overall level: the mean of the scores against 75 and 50. *)
Definition overall_risk_level (scores : gmap string Q) : outcome string :=
  if Nat.eqb (size scores) 0 then Failed ZeroDivisionError
  else
    let total_score := (values_total scores / inject_Z (Z.of_nat (size scores)))%Q in
    Done (if Qle_bool 75 total_score then "高危"
          else if Qle_bool 50 total_score then "中危"
          else "低危").

(** [_format_executive_summary_html] on the two entries of
    [self.scan_results] it reads. *)
Definition _format_executive_summary_html
    (scan_results : ScanResults) (risk_scores : option (gmap string Q))
  : outcome string :=
  let summary := "<div class='executive-summary'>" in
  match
    match vuln_scan scan_results with
    | Some vs =>
        match count_services vs (mkVulnCount 0 0 0 0) with
        | Failed e => Failed e
        | Done c =>
            Done (summary ++ "<h3>关键发现</h3>" ++ "<ul>"
                  ++ "<li class='critical'>发现 " ++ Py.str (VInt (vc_critical c))
                  ++ " 个严重漏洞</li>"
                  ++ "<li class='high'>发现 " ++ Py.str (VInt (vc_high c))
                  ++ " 个高危漏洞</li>"
                  ++ "<li class='medium'>发现 " ++ Py.str (VInt (vc_medium c))
                  ++ " 个中危漏洞</li>"
                  ++ "<li class='low'>发现 " ++ Py.str (VInt (vc_low c))
                  ++ " 个低危漏洞</li>"
                  ++ "</ul>")
        end
    | None => Done summary
    end
  with
  | Failed e => Failed e
  | Done summary =>
      match
        match risk_scores with
        | Some scores =>
            match overall_risk_level scores with
            | Failed e => Failed e
            | Done risk_level =>
                Done (summary ++ "<h3>整体风险评估</h3>"
                      ++ "<p>目标系统的整体风险等级为 <span class='"
                      ++ Py.lower risk_level ++ "'>" ++ risk_level ++ "</span></p>")
            end
        | None => Done summary
        end
      with
      | Failed e => Failed e
      | Done summary => Done (summary ++ "</div>")
      end
  end.

(** The severity names the summary has a counter for. *)
Definition counted_severities : list string := ["critical"; "high"; "medium"; "low"].

(** * Inputs of the concrete runs of the further properties *)

Definition mail_asset (exposed : bool) : Asset :=
  {| a_name := "Mail Server (10.0.0.9)";
     a_type := MAIL_SERVER;
     a_value := 5;
     a_exposed := exposed;
     a_services := [VStr "smtp"];
     a_description := "" |}.

(** Two findings that are not vulnerable; the severity of the second is
    not a string. *)
Definition harmless_scan : ScanResults :=
  {| port_scan := None;
     vuln_scan :=
       Some [("https",
              ToolFindings
                [("nikto", FindingsDict (<["vulnerable" := VBool false]> ∅));
                 ("sqlmap", FindingsDict (<["severity" := VInt 3]> ∅))])];
     waf_bypass := None |}.

Definition numeric_severity_findings : dict :=
  <["vulnerable" := VBool true]> (<["severity" := VInt 3]> ∅).

(** What [nmap] answers for one host with an open and a closed port. *)
Definition sample_nmap_answer : NmapAnswer :=
  Ok [("10.0.0.5",
       {| nh_state := VStr "up";
          nh_protocols :=
            [("tcp",
              [(VInt 443, <["state" := VStr "open"]> (<["name" := VStr "https"]> ∅));
               (VInt 8080, <["state" := VStr "closed"]> ∅)])] |})].

Definition sample_scanner_results : ScannerResults :=
  snd (scan sample_nmap_answer sample_nmap_answer sample_nmap_answer []).

(** A domain controller found on port 389 with the service name [smb]. *)
Definition smb_controller_state : ThreatModeling :=
  after (AnalyzeAssets
           (one_host_scan "dc1" [(VInt 389, <["service" := VStr "smb"]> ∅)]))
        init.

Definition info_severity_scan : ScanResults :=
  {| port_scan := None;
     vuln_scan :=
       Some [("web_80", ToolFindings [("nikto", FindingsDict info_severity_finding)])];
     waf_bypass := None |}.

Definition empty_scan : ScanResults :=
  {| port_scan := None; vuln_scan := None; waf_bypass := None |}.

(** What [check_smb_vuln] returns for a host that is not vulnerable. *)
Definition smb_findings : dict :=
  <["vulnerable" := VBool false]> (<["details" := VStr "Host is up"]> ∅).

(** The results of a fresh scanner run on port 445 alone, with no other
    scan and a WAF that was detected. *)
Definition smb_scan : ScanResults :=
  with_vuln_scan
    (scan_all "10.0.0.5" (fun _ => ∅) (fun _ => ∅) smb_findings [445] [])
    {| port_scan := None;
       vuln_scan := None;
       waf_bypass := Some {| waf_info := Some (<["detected" := VBool true]> ∅) |} |}.

(** The same without a WAF result. *)
Definition smb_scan_without_waf : ScanResults :=
  with_vuln_scan
    (scan_all "10.0.0.5" (fun _ => ∅) (fun _ => ∅) smb_findings [445] [])
    empty_scan.

(** * Properties *)

(** ** Evaluation on small inputs *)

Example likelihood_rce_easy :
  _calculate_likelihood
    (<["type" := VStr "rce"]> (<["difficulty" := VStr "easy"]> ∅)) = 10.
Proof. reflexivity. Qed.

Example str_389 : Py.str (VInt 389) = "389".
Proof. reflexivity. Qed.

Example lower_mixed : Py.lower "CriTical" = "critical".
Proof. reflexivity. Qed.

Example impact_system_first :
  _calculate_impact (<["impact" := VStr "Full SYSTEM access to user data"]> ∅)
  = Ok 9.
Proof. reflexivity. Qed.

Example impact_data_before_user :
  _calculate_impact (<["impact" := VStr "leak of user data"]> ∅) = Ok 8.
Proof. reflexivity. Qed.

Example impact_of_a_number_raises :
  _calculate_impact (<["impact" := VInt 7]> ∅) = Raise (AttributeError "lower").
Proof. reflexivity. Qed.

Example vectors_deduplicated :
  length (_identify_attack_vectors
            (<["type" := VStr "sqli"]> (<["method" := VStr "SQL注入"]> ∅)))
  = 2%nat.
Proof. reflexivity. Qed.

(** ** Loops in the monad *)

Lemma for_each_app {X} (l1 l2 : list X) (body : X -> M unit) s :
  for_each (l1 ++ l2) body s = (for_each l1 body ;;; for_each l2 body) s.
Proof.
  revert s. induction l1 as [|x l1 IH]; intros s; simpl.
  - reflexivity.
  - unfold bind. destruct (body x s) as [[[]|e] s1].
    + rewrite IH. reflexivity.
    + reflexivity.
Qed.

Lemma for_each_flat_map {X Y} (f : X -> list Y) (l : list X) (body : Y -> M unit) s :
  for_each (flat_map f l) body s = for_each l (fun x => for_each (f x) body) s.
Proof.
  revert s. induction l as [|x l IH]; intros s; simpl.
  - reflexivity.
  - rewrite for_each_app. unfold bind.
    destruct (for_each (f x) body s) as [[[]|e] s1]; [apply IH | reflexivity].
Qed.

Lemma for_each_map {X Y} (f : X -> Y) (l : list X) (body : Y -> M unit) s :
  for_each (map f l) body s = for_each l (fun x => body (f x)) s.
Proof.
  revert s. induction l as [|x l IH]; intros s; simpl.
  - reflexivity.
  - unfold bind. destruct (body (f x) s) as [[[]|e] s1]; [apply IH | reflexivity].
Qed.

Lemma for_each_ext {X} (l : list X) (f g : X -> M unit) s :
  (forall x s, f x s = g x s) -> for_each l f s = for_each l g s.
Proof.
  intros E. revert s. induction l as [|x l IH]; intros s; simpl.
  - reflexivity.
  - unfold bind. rewrite E. destruct (g x s) as [[[]|e] s1]; [apply IH | reflexivity].
Qed.

(** ** Records of a port scan, in the order the loops visit them *)

Lemma classify_host_records hd s :
  classify_host hd s = for_each (host_records hd) classify_record s.
Proof.
  destruct hd as [host data]. unfold classify_host, host_records.
  rewrite for_each_flat_map. apply for_each_ext.
  intros [proto ports] s'. rewrite for_each_map.
  apply for_each_ext. now intros [port info] s''.
Qed.

Lemma port_loop_records scan_results s :
  match port_scan scan_results with
  | Some ps => for_each ps classify_host
  | None => ret tt
  end s = for_each (records_of scan_results) classify_record s.
Proof.
  unfold records_of. destruct (port_scan scan_results) as [ps|]; [|reflexivity].
  rewrite for_each_flat_map. apply for_each_ext. apply classify_host_records.
Qed.

Lemma add_assets_nil s : add_assets [] s = s.
Proof. destruct s. unfold add_assets. simpl. now rewrite app_nil_r. Qed.

Lemma add_assets_app l1 l2 s :
  add_assets l2 (add_assets l1 s) = add_assets (l1 ++ l2) s.
Proof. unfold add_assets. simpl. now rewrite app_assoc. Qed.

Lemma classify_record_spec r s :
  classify_record r s =
  match assets_of_record r with
  | Ok l => (Ok tt, add_assets l s)
  | Raise e => (Raise e, s)
  end.
Proof.
  destruct r as [[host port] info].
  unfold classify_record, assets_of_record, classify_port, getitem.
  destruct (info !! "service") as [service|]; [|reflexivity].
  unfold bind, ret. simpl.
  repeat match goal with
         | |- context [if ?c then _ else _] => destruct c
         end; simpl; try reflexivity; now rewrite add_assets_nil.
Qed.

Lemma records_all_ok rs s :
  Forall has_service rs ->
  for_each rs classify_record s = (Ok tt, add_assets (assets_of rs) s).
Proof.
  intros H. revert s. induction H as [|r rs Hr _ IH]; intros s; simpl.
  - now rewrite add_assets_nil.
  - unfold bind. rewrite classify_record_spec.
    destruct r as [[host port] info]. destruct Hr as [sv Hsv]. simpl in Hsv.
    unfold assets_of_record. rewrite Hsv.
    rewrite IH. now rewrite add_assets_app.
Qed.

Lemma records_abort pre bad post s :
  Forall has_service pre -> lacks_service bad ->
  for_each (pre ++ bad :: post) classify_record s
  = (Raise (KeyError "service"), add_assets (assets_of pre) s).
Proof.
  intros Hpre Hbad. rewrite for_each_app. unfold bind at 1.
  rewrite records_all_ok by assumption. simpl. unfold bind.
  rewrite classify_record_spec.
  destruct bad as [[host port] info]. unfold lacks_service in Hbad. simpl in Hbad.
  unfold assets_of_record. now rewrite Hbad.
Qed.

(** ** Outcome of [analyze_assets] *)

(** Every record has its service key: the batch completes, the inventory
    grows by the assets of the records and the store receives its
    rendering. *)
Lemma analyze_assets_completes scan_results s :
  Forall has_service (records_of scan_results) ->
  let grown := (assets s ++ assets_of (records_of scan_results))%list in
  analyze_assets scan_results s
  = (Ok grown,
     {| results := set_r_assets (map _asset_to_dict grown) (results s);
        assets := grown;
        threats := threats s |}).
Proof.
  intros H. unfold analyze_assets, try_except, analyze_assets_body.
  unfold bind at 1. rewrite port_loop_records, records_all_ok by assumption.
  reflexivity.
Qed.

(** A record without its service key: the handler runs; what the records
    before it appended stays and the store is not touched. *)
Lemma analyze_assets_aborts scan_results pre bad post s :
  records_of scan_results = (pre ++ bad :: post)%list ->
  Forall has_service pre -> lacks_service bad ->
  analyze_assets scan_results s = (Ok [], add_assets (assets_of pre) s).
Proof.
  intros E Hpre Hbad. unfold analyze_assets, try_except, analyze_assets_body.
  unfold bind at 1. rewrite port_loop_records, E, records_abort by assumption.
  reflexivity.
Qed.

Lemma has_service_dec (r : PortRecord) : {has_service r} + {lacks_service r}.
Proof.
  unfold has_service, lacks_service. destruct (snd r !! "service") as [v|].
  - left. now exists v.
  - now right.
Qed.

(** A batch either is well formed throughout or has a first malformed
    record. *)
Lemma first_malformed (rs : list PortRecord) :
  Forall has_service rs \/
  exists pre bad post,
    rs = (pre ++ bad :: post)%list /\ Forall has_service pre /\ lacks_service bad.
Proof.
  induction rs as [|r rs IH].
  - left. constructor.
  - destruct (has_service_dec r) as [Hr|Hr].
    + destruct IH as [IH|(pre & bad & post & -> & Hpre & Hbad)].
      * left. now constructor.
      * right. exists (r :: pre), bad, post. repeat split; [|assumption].
        now constructor.
    + right. exists [], r, rs. repeat split; [constructor | assumption].
Qed.

(** ** Shape of classified assets *)

Lemma assets_of_record_classified r l :
  assets_of_record r = Ok l -> Forall classified l.
Proof.
  destruct r as [[host port] info]. unfold assets_of_record.
  destruct (info !! "service") as [service|] eqn:E; [|discriminate].
  intros [= <-]. unfold classify_port, getitem. rewrite E.
  unfold bind, ret. simpl.
  repeat match goal with
         | |- context [if ?c then _ else _] => destruct c
         end; simpl;
    repeat first [apply List.Forall_nil | apply List.Forall_cons];
    split; reflexivity.
Qed.

Lemma assets_of_classified rs : Forall classified (assets_of rs).
Proof.
  unfold assets_of. induction rs as [|r rs IH]; simpl.
  - constructor.
  - apply Forall_app. split; [|exact IH].
    destruct (assets_of_record r) as [l|e] eqn:E.
    + now apply assets_of_record_classified in E.
    + constructor.
Qed.

(** Classified assets of one name agree on type, value and exposure. *)
Lemma classified_same_name a b :
  classified a -> classified b -> a_name a = a_name b ->
  a_type a = a_type b /\ a_value a = a_value b /\ a_exposed a = a_exposed b.
Proof.
  intros [Ha Ea] [Hb Eb] E. rewrite E in Ha. rewrite Ha in Hb.
  injection Hb as -> ->. now rewrite Ea, Eb.
Qed.

Lemma classified_value a : classified a -> 8 <= a_value a <= 10.
Proof.
  intros [H _]. unfold kind_of_name in H.
  repeat match type of H with
         | context [if ?c then _ else _] => destruct c
         end; inversion H; lia.
Qed.

(** ** Outcome of [identify_threats] *)

Lemma add_threats_nil s : add_threats [] s = s.
Proof. destruct s. unfold add_threats. simpl. now rewrite app_nil_r. Qed.

Lemma add_threats_app l1 l2 s :
  add_threats l2 (add_threats l1 s) = add_threats (l1 ++ l2) s.
Proof. unfold add_threats. simpl. now rewrite app_assoc. Qed.

(** The outcome [r] with no threat appended. *)
Ltac nothing_appended r :=
  exists r, (@nil Threat); rewrite add_threats_nil;
  repeat split; auto using List.Forall_nil.

Lemma likelihood_range finding : 1 <= _calculate_likelihood finding <= 10.
Proof. unfold _calculate_likelihood. lia. Qed.

Lemma impact_range finding i :
  _calculate_impact finding = Ok i -> 1 <= i <= 10.
Proof.
  unfold _calculate_impact.
  destruct (finding !! "impact") as [v|]; [destruct (Py.lower_of v)|];
    intros [= <-]; lia.
Qed.

(** One tool's findings either append one threat with clamped numbers,
    append nothing, or raise and append nothing. *)
Lemma threat_of_findings_outcome service_type findings s :
  exists r l,
    threat_of_findings service_type findings s = (r, add_threats l s)
    /\ Forall in_range l
    /\ Forall (fun t => t_name t = "Vulnerability in " ++ service_type) l
    /\ (length l <= 1)%nat.
Proof.
  unfold threat_of_findings.
  destruct findings as [findings|v];
    [|nothing_appended (Raise (A:=unit) (AttributeError "get"))].
  destruct (Py.truthy _).
  - unfold bind, lift.
    destruct (_determine_threat_level findings) as [level|e].
    + destruct (_calculate_impact findings) as [impact|e] eqn:Ei.
      * eexists (Ok tt), [_]. split; [reflexivity|].
        repeat split; repeat first [apply List.Forall_nil | apply List.Forall_cons];
          simpl; try lia; try reflexivity.
        split; simpl; [apply likelihood_range | now apply impact_range in Ei].
      * nothing_appended (Raise (A:=unit) e).
    + nothing_appended (Raise (A:=unit) e).
  - nothing_appended (Ok tt).
Qed.

(** The vulnerability phase appends clamped threats named after their
    service type and leaves the rest of the object alone. *)
Lemma vuln_phase_outcome scan_results s :
  exists r l,
    vuln_phase scan_results s = (r, add_threats l s)
    /\ Forall in_range l /\ Forall vuln_name l.
Proof.
  unfold vuln_phase. destruct (vuln_scan scan_results) as [vs|].
  2:{ nothing_appended (Ok tt). }
  assert (Hloop : forall (tools : list (string * Findings)) service_type s,
             exists r l,
               for_each tools (fun '(tool, findings) =>
                                 threat_of_findings service_type findings) s
               = (r, add_threats l s)
               /\ Forall in_range l /\ Forall vuln_name l).
  { clear. intros tools service_type.
    induction tools as [|[tool findings] tools IH]; intros s; simpl.
    - nothing_appended (Ok tt).
    - unfold bind.
      destruct (threat_of_findings_outcome service_type findings s)
        as (r & l & -> & Hr & Hn & _).
      assert (Hv : Forall vuln_name l).
      { eapply List.Forall_impl; [|exact Hn]. intros t Ht. now exists service_type. }
      destruct r as [[]|e].
      + destruct (IH (add_threats l s)) as (r2 & l2 & -> & Hr2 & Hn2).
        exists r2, (l ++ l2)%list. rewrite add_threats_app.
        repeat split; now apply Forall_app.
      + exists (Raise e), l. repeat split; assumption. }
  revert s. induction vs as [|[service_type res] vs IH]; intros s; cbn [for_each].
  - nothing_appended (Ok tt).
  - unfold bind.
    assert (H1 : exists r l, threats_of_service (service_type, res) s
                             = (r, add_threats l s)
                             /\ Forall in_range l /\ Forall vuln_name l).
    { simpl. destruct res as [tools|v].
      - apply Hloop.
      - nothing_appended (Ok tt). }
    destruct H1 as (r & l & -> & Hr & Hn).
    destruct r as [[]|e].
    + destruct (IH (add_threats l s)) as (r2 & l2 & -> & Hr2 & Hn2).
      exists r2, (l ++ l2)%list. rewrite add_threats_app.
      repeat split; now apply Forall_app.
    + exists (Raise e), l. repeat split; assumption.
Qed.

Lemma waf_phase_spec scan_results s :
  waf_phase scan_results s
  = (Ok tt, if waf_detected scan_results
            then add_threats [waf_threat (assets s)] s
            else s).
Proof.
  unfold waf_phase, waf_detected.
  destruct (waf_bypass scan_results) as [wb|]; [|reflexivity].
  destruct (Py.truthy _); reflexivity.
Qed.

(** The whole method in terms of its vulnerability phase. *)
Lemma identify_threats_spec scan_results s :
  identify_threats scan_results s =
  match vuln_phase scan_results s with
  | (Ok _, s1) =>
      let ts := if waf_detected scan_results
                then (threats s1 ++ [waf_threat (assets s1)])%list
                else threats s1 in
      (Ok ts, {| results := set_r_threats (map _threat_to_dict ts) (results s1);
                 assets := assets s1;
                 threats := ts |})
  | (Raise _, s1) => (Ok [], s1)
  end.
Proof.
  unfold identify_threats, try_except, identify_threats_body.
  unfold bind at 1. destruct (vuln_phase scan_results s) as [[[]|e] s1]; [|reflexivity].
  unfold bind at 1. rewrite waf_phase_spec.
  destruct (waf_detected scan_results); reflexivity.
Qed.

(** ** The risk scorer *)

Lemma name_in_elem_of name (l : list string) :
  name_in name l = true <-> name ∈ l.
Proof.
  unfold name_in. induction l as [|x l IH]; simpl.
  - split; [discriminate | intros H; inversion H].
  - rewrite orb_true_iff, IH, elem_of_cons, String.eqb_eq. tauto.
Qed.

Lemma py_sum_foldr (l : list Z) acc :
  fold_left Z.add l acc = acc + foldr Z.add 0 l.
Proof.
  revert acc. induction l as [|x l IH]; intros acc; simpl; [lia|].
  rewrite IH. lia.
Qed.

Lemma min100_Qmin x : Py.min100 x = Qmin 100 x.
Proof.
  unfold Py.min100, Qmin, GenericMinMax.gmin, Qle_bool, Qcompare, Z.leb.
  now destruct (_ ?= _)%Z.
Qed.

Lemma threat_score_spec ts name :
  let affecting_threats :=
    List.filter (fun threat => name_in name (t_affected_assets threat)) ts in
  match affecting_threats with
  | [] => 0
  | _ => py_sum (map (fun threat => t_likelihood threat * t_impact threat)
                     affecting_threats)
  end = spec_threat_score ts name.
Proof.
  intros affecting_threats.
  assert (H : py_sum (map (fun threat => t_likelihood threat * t_impact threat)
                          affecting_threats)
              = spec_threat_score ts name).
  { subst affecting_threats. unfold py_sum. rewrite py_sum_foldr, Z.add_0_l.
    induction ts as [|t ts IH]; simpl; [reflexivity|].
    destruct (name_in name (t_affected_assets t)) eqn:E.
    - apply name_in_elem_of in E. rewrite decide_True by assumption.
      simpl. now rewrite IH.
    - rewrite decide_False; [exact IH|].
      intros Hin. apply name_in_elem_of in Hin. congruence. }
  destruct affecting_threats; [|exact H].
  now rewrite <- H.
Qed.

Lemma asset_risk_spec ts a : asset_risk ts a = spec_score ts a.
Proof.
  unfold asset_risk, spec_score. rewrite min100_Qmin.
  pose proof (threat_score_spec ts (a_name a)) as H. cbv zeta in H.
  now rewrite H.
Qed.

(** The score reads the name, the value and the exposure of an asset and
    nothing else. *)
Lemma spec_score_ext ts a b :
  a_name a = a_name b -> a_value a = a_value b -> a_exposed a = a_exposed b ->
  spec_score ts a = spec_score ts b.
Proof. unfold spec_score. now intros -> -> ->. Qed.

Lemma risk_scores_of_snoc all a ts :
  risk_scores_of (all ++ [a]) ts
  = <[a_name a := asset_risk ts a]> (risk_scores_of all ts).
Proof. unfold risk_scores_of. now rewrite fold_left_app. Qed.

(** The entry of a name is the score of the last asset carrying it. *)
Lemma risk_scores_of_lookup all ts name :
  risk_scores_of all ts !! name
  = asset_risk ts <$> last (List.filter (fun a => String.eqb (a_name a) name) all).
Proof.
  induction all as [|a all IH] using rev_ind.
  - reflexivity.
  - rewrite risk_scores_of_snoc, List.filter_app. simpl.
    destruct (String.eqb (a_name a) name) eqn:E.
    + apply String.eqb_eq in E. subst name.
      rewrite lookup_insert_eq, last_snoc. reflexivity.
    + apply String.eqb_neq in E.
      rewrite lookup_insert_ne by assumption. now rewrite app_nil_r.
Qed.

Lemma last_filter_elem {A} (p : A -> bool) (l : list A) x :
  last (List.filter p l) = Some x -> x ∈ l /\ p x = true.
Proof.
  intros H. assert (Hin : x ∈ List.filter p l).
  { destruct (List.filter p l) as [|y r] using rev_ind; [discriminate|].
    rewrite last_snoc in H. injection H as ->. apply elem_of_app. right.
    apply list_elem_of_singleton. reflexivity. }
  apply list_elem_of_In, List.filter_In in Hin.
  destruct Hin as [Hin Hp]. split; [now apply list_elem_of_In | exact Hp].
Qed.

Lemma last_filter_some {A} (p : A -> bool) (l : list A) x :
  x ∈ l -> p x = true -> is_Some (last (List.filter p l)).
Proof.
  intros Hin Hp.
  assert (H : x ∈ List.filter p l).
  { apply list_elem_of_In, List.filter_In. split; [now apply list_elem_of_In|exact Hp]. }
  destruct (List.filter p l) as [|y r] using rev_ind.
  - inversion H.
  - rewrite last_snoc. now eexists.
Qed.

(** In an inventory of classified assets, the entry of every asset's name
    is the score of the specification for that very asset. *)
Lemma risk_scores_of_classified all ts a :
  Forall classified all -> a ∈ all ->
  risk_scores_of all ts !! a_name a = Some (spec_score ts a).
Proof.
  intros Hall Hin. rewrite risk_scores_of_lookup.
  destruct (last_filter_some (fun b => String.eqb (a_name b) (a_name a)) all a Hin)
    as [b Hb]; [apply String.eqb_refl|].
  rewrite Hb. simpl. f_equal. rewrite asset_risk_spec.
  apply last_filter_elem in Hb. destruct Hb as [Hbin Hbn].
  apply String.eqb_eq in Hbn.
  rewrite List.Forall_forall in Hall.
  destruct (classified_same_name b a) as (_ & Hv & He); auto.
  - apply Hall. now apply list_elem_of_In.
  - apply Hall. now apply list_elem_of_In.
  - now apply spec_score_ext.
Qed.

(** The method never reaches its handler. *)
Lemma calculate_risk_scores_spec s :
  calculate_risk_scores s
  = (Ok (risk_scores_of (assets s) (threats s)),
     {| results := set_r_risk_scores (risk_scores_of (assets s) (threats s)) (results s);
        assets := assets s;
        threats := threats s |}).
Proof. reflexivity. Qed.

(** ** The summarizer *)

(** Either the suggestions are computed and the report is stored, or an
    attack vector that is not a string raises and nothing is stored. *)
Lemma generate_attack_surface_report_spec s :
  generate_attack_surface_report s =
  match _generate_mitigation_suggestions
          (report_exposed_services (assets s)) (report_vectors (threats s)) with
  | Ok suggestions =>
      let report :=
        {| exposed_services := report_exposed_services (assets s);
           critical_assets := report_critical_assets (assets s);
           high_risk_threats :=
             map (fun threat => {| hr_name := t_name threat;
                                   hr_level := ThreatLevel_value (t_level threat);
                                   hr_description := t_description threat |})
                 (List.filter is_high_risk (threats s));
           attack_vectors := report_vectors (threats s);
           mitigation_suggestions := suggestions |} in
      (Ok (Some report),
       {| results := set_r_attack_surface report (results s);
          assets := assets s;
          threats := threats s |})
  | Raise _ => (Ok None, s)
  end.
Proof.
  unfold generate_attack_surface_report, try_except,
    generate_attack_surface_report_body, report_vectors.
  unfold bind, get_assets, get_threats, lift.
  now destruct (_generate_mitigation_suggestions _ _).
Qed.

(** ** Invariant of reachable states *)

Lemma wf_init : wf init.
Proof. split; simpl; [constructor | constructor | discriminate]. Qed.

Lemma waf_threat_in_range all : in_range (waf_threat all).
Proof. unfold in_range. simpl. lia. Qed.

Lemma wf_after c s : wf s -> wf (after c s).
Proof.
  intros [Ha Ht Hs]. destruct c as [sr|sr| |]; unfold after.
  - destruct (first_malformed (records_of sr))
      as [Hok|(pre & bad & post & E & Hpre & Hbad)].
    + rewrite analyze_assets_completes by assumption. simpl.
      split; simpl.
      * apply Forall_app. split; [exact Ha | apply assets_of_classified].
      * exact Ht.
      * intros l [= <-]. now rewrite length_map.
    + rewrite (analyze_assets_aborts sr pre bad post) by assumption.
      split; simpl.
      * apply Forall_app. split; [exact Ha | apply assets_of_classified].
      * exact Ht.
      * intros l Hl. apply Hs in Hl. rewrite length_app. lia.
  - rewrite identify_threats_spec.
    destruct (vuln_phase_outcome sr s) as (r & l & -> & Hr & _).
    assert (Hl : Forall in_range (threats s ++ l)) by now apply Forall_app.
    destruct r as [[]|e]; simpl.
    + split; simpl; [exact Ha | | exact Hs].
      destruct (waf_detected sr); [|exact Hl].
      apply Forall_app. split; [exact Hl|].
      apply List.Forall_cons; [apply waf_threat_in_range | constructor].
    + split; simpl; assumption.
  - rewrite calculate_risk_scores_spec. split; simpl; assumption.
  - rewrite generate_attack_surface_report_spec.
    destruct (_generate_mitigation_suggestions _ _); split; simpl; assumption.
Qed.

Lemma reachable_wf s : reachable s -> wf s.
Proof.
  induction 1 as [|c s _ IH]; [apply wf_init | now apply wf_after].
Qed.

(** * Properties of the specification *)

(** ** Likelihood *)

Lemma py_eqb_str v s : Py.eqb v (VStr s) = bool_decide (v = VStr s).
Proof.
  destruct v as [|b|z|t]; simpl; try (destruct b); try reflexivity.
  destruct (String.eqb_spec t s) as [->|Hne].
  - now rewrite bool_decide_eq_true_2.
  - rewrite bool_decide_eq_false_2; [reflexivity | congruence].
Qed.

Lemma py_in_strs_elem_of v l :
  Py.in_strs v l = bool_decide (v ∈ map VStr l).
Proof.
  unfold Py.in_strs. induction l as [|s l IH]; cbn [existsb map].
  - symmetry. apply bool_decide_eq_false_2. intros H; inversion H.
  - rewrite IH, py_eqb_str.
    destruct (decide (v = VStr s)) as [->|Hne].
    + rewrite (bool_decide_eq_true_2 (VStr s = VStr s)) by reflexivity.
      cbn [orb]. symmetry. apply bool_decide_eq_true_2. constructor.
    + rewrite (bool_decide_eq_false_2 (v = VStr s)) by assumption. cbn [orb].
      apply bool_decide_ext. rewrite elem_of_cons. tauto.
Qed.

Lemma clamp_max_min x : Z.max 1 (Z.min 10 x) = clamp 1 10 x.
Proof.
  unfold clamp.
  destruct (Z.ltb_spec x 1); [lia|]. destruct (Z.ltb_spec 10 x); lia.
Qed.

(** C6.  The likelihood computed from a finding is 5, plus 3 for a type in
    rce, sqli, upload or plus 2 for a type in xss, csrf, plus 2 for
    difficulty easy or minus 2 for difficulty hard, the two adjustments
    being added independently, and the sum clamped to the range 1..10. *)
Theorem likelihood_formula (finding : dict) :
  _calculate_likelihood finding = spec_likelihood finding.
Proof.
  unfold _calculate_likelihood, spec_likelihood,
    spec_type_adjustment, spec_difficulty_adjustment.
  rewrite clamp_max_min. f_equal.
  destruct (finding !! "type") as [ty|];
    destruct (finding !! "difficulty") as [d|];
    rewrite ?py_in_strs_elem_of, ?py_eqb_str; simpl map;
    repeat case_bool_decide; repeat case_decide; try lia; tauto.
Qed.

(** ** Threat level *)

(** C2, as stated, fails: a vulnerable finding whose severity is the
    unrecognized name [info] is given level low, not medium. *)
Lemma unrecognized_severity_is_low :
  Py.truthy (get_or info_severity_finding "vulnerable" (VBool false)) = true
  /\ info_severity_finding !! "severity" = Some (VStr "info")
  /\ spec_threat_level info_severity_finding = MEDIUM
  /\ _determine_threat_level info_severity_finding = Ok LOW
  /\ _determine_threat_level info_severity_finding
     <> Ok (spec_threat_level info_severity_finding).
Proof. repeat split; try reflexivity. vm_compute. discriminate. Qed.

(** C2, amended.  The level is read from the severity string without
    regard to case: critical, high and medium map to their levels and
    every other string, the name low and unrecognized names alike, maps
    to low; only a finding without the field is given medium.  A severity
    that is not a string raises. *)
Theorem threat_level_from_severity (finding : dict) :
  _determine_threat_level finding =
  match finding !! "severity" with
  | None => Ok MEDIUM
  | Some (VStr s) => Ok (level_of_severity s)
  | Some _ => Raise (AttributeError "lower")
  end.
Proof.
  unfold _determine_threat_level, level_of_severity.
  destruct (finding !! "severity") as [[|b|z|s]|]; try reflexivity.
  simpl. generalize (Py.lower s). intros name.
  destruct (String.eqb_spec name "critical");
    [now rewrite decide_True | rewrite decide_False by assumption].
  destruct (String.eqb_spec name "high");
    [now rewrite decide_True | rewrite decide_False by assumption].
  destruct (String.eqb_spec name "medium");
    [now rewrite decide_True | now rewrite decide_False].
Qed.

(** ** Port 389 *)

(** C4.  A record for port 389 whose service name is empty is classified
    as exactly one asset: a domain controller of value 10, exposed, whose
    name is built from the host alone. *)
Theorem port_389_is_domain_controller
    (host proto : string) (rest : dict) vs wb (s : ThreatModeling) :
  exists a,
    a_name a = "Domain Controller (" ++ host ++ ")"
    /\ a_type a = DOMAIN_CONTROLLER
    /\ a_value a = 10
    /\ a_exposed a = true
    /\ assets_of_record (host, VInt 389, <["service" := VStr ""]> rest) = Ok [a]
    /\ fst (analyze_assets
              (single_record_scan host proto (VInt 389)
                 (<["service" := VStr ""]> rest) vs wb) s)
       = Ok (assets s ++ [a])%list
    /\ assets (snd (analyze_assets
                      (single_record_scan host proto (VInt 389)
                         (<["service" := VStr ""]> rest) vs wb) s))
       = (assets s ++ [a])%list.
Proof.
  set (info := <["service" := VStr ""]> rest).
  set (a := {| a_name := "Domain Controller (" ++ host ++ ")";
               a_type := DOMAIN_CONTROLLER;
               a_value := 10;
               a_exposed := true;
               a_services := [VStr ""];
               a_description := "域控制器" |}).
  assert (Hs : info !! "service" = Some (VStr "")) by apply lookup_insert_eq.
  assert (Ha : assets_of_record (host, VInt 389, info) = Ok [a]).
  { unfold assets_of_record, classify_port, getitem. rewrite Hs. reflexivity. }
  assert (Hok : Forall has_service
                  (records_of (single_record_scan host proto (VInt 389) info vs wb))).
  { unfold records_of. simpl. constructor; [|constructor]. now exists (VStr ""). }
  assert (Hal : assets_of
                  (records_of (single_record_scan host proto (VInt 389) info vs wb))
                = [a]).
  { unfold records_of, assets_of. cbn -[assets_of_record].
    fold info. rewrite Ha. reflexivity. }
  exists a. split; [reflexivity|]. split; [reflexivity|].
  split; [reflexivity|]. split; [reflexivity|]. split; [exact Ha|].
  rewrite analyze_assets_completes by exact Hok. cbv zeta. rewrite Hal.
  now split.
Qed.

(** ** Idempotence of the scorer *)

(** C7.  Two runs of the risk scorer on an unchanged inventory and threat
    list return the same mapping, and the second run stores a mapping
    equal to the one the first run stored: the object is the same after
    the second run as after the first. *)
Theorem risk_scorer_idempotent (s : ThreatModeling) :
  exists scores s1,
    calculate_risk_scores s = (Ok scores, s1)
    /\ calculate_risk_scores s1 = (Ok scores, s1)
    /\ r_risk_scores (results s1) = Some scores
    /\ assets s1 = assets s /\ threats s1 = threats s.
Proof.
  eexists _, _. split; [apply calculate_risk_scores_spec|].
  rewrite calculate_risk_scores_spec. simpl. repeat split.
Qed.

(** ** The score formula *)

(** In the states the object can reach the names settle the scores: two
    assets of one name come from the same rule of the classifier. *)
Lemma reachable_name_settles_score s a :
  reachable s -> a ∈ assets s -> name_settles_score (assets s) a.
Proof.
  intros Hr Ha b Hb E. apply reachable_wf in Hr. destruct Hr as [Hall _ _].
  rewrite List.Forall_forall in Hall.
  destruct (classified_same_name b a) as (_ & Hv & He); auto;
    apply Hall; now apply list_elem_of_In.
Qed.

(** C1.  Whatever the inventory and the threat list hold, the risk
    scorer returns and stores a mapping that has, under the name of
    every asset [a] of the inventory, [min(100, (value * 10 + S) * m)],
    where [S] sums likelihood times impact over the threats that list
    the name (0 when there is none) and [m] is 1.5 for an exposed asset
    and 1.0 otherwise.  The mapping is keyed by name, so the number is
    the one of [a] when the assets that share its name share its value
    and its exposure, as they do in every state the methods can
    reach. *)
Theorem risk_score_formula (s : ThreatModeling) (a : Asset) :
  a ∈ assets s ->
  name_settles_score (assets s) a ->
  exists scores s',
    calculate_risk_scores s = (Ok scores, s')
    /\ r_risk_scores (results s') = Some scores
    /\ scores !! a_name a
       = Some (Qmin 100
                 (inject_Z (a_value a * 10
                            + spec_threat_score (threats s) (a_name a))
                  * (if a_exposed a then 3 # 2 else 1)))%Q.
Proof.
  intros Hin Hsame.
  eexists _, _. split; [apply calculate_risk_scores_spec|].
  split; [reflexivity|].
  rewrite risk_scores_of_lookup.
  destruct (last_filter_some (fun b => String.eqb (a_name b) (a_name a))
              (assets s) a Hin) as [b Hb]; [apply String.eqb_refl|].
  rewrite Hb. cbn [fmap option_fmap option_map]. f_equal.
  rewrite asset_risk_spec.
  apply last_filter_elem in Hb. destruct Hb as [Hbin Hbn].
  apply String.eqb_eq in Hbn.
  destruct (Hsame b Hbin Hbn) as [Hv He].
  exact (spec_score_ext (threats s) b a Hbn Hv He).
Qed.

(** ** Bounds *)

Lemma spec_threat_score_nonneg ts name :
  Forall in_range ts -> 0 <= spec_threat_score ts name.
Proof.
  induction 1 as [|t ts [Hl Hi] _ IH]; simpl; [lia|].
  case_decide; [nia | exact IH].
Qed.

Lemma exposure_multiplier_pos (b : bool) : (0 <= (if b then 3 # 2 else 1))%Q.
Proof. destruct b; discriminate. Qed.

Lemma spec_score_range ts a :
  0 <= a_value a -> 0 <= spec_threat_score ts (a_name a) ->
  (0 <= spec_score ts a <= 100)%Q.
Proof.
  intros Hv Hs. unfold spec_score. split.
  - apply Q.min_glb; [discriminate|].
    apply Qmult_le_0_compat; [|apply exposure_multiplier_pos].
    change 0%Q with (inject_Z 0). rewrite <- Zle_Qle. lia.
  - apply Q.le_min_l.
Qed.

(** Every entry of the mapping is the score of an asset of the
    inventory. *)
Lemma risk_scores_of_entry all ts name score :
  risk_scores_of all ts !! name = Some score ->
  exists a, a ∈ all /\ a_name a = name /\ score = spec_score ts a.
Proof.
  rewrite risk_scores_of_lookup.
  destruct (last _) as [a|] eqn:E; [|discriminate].
  intros [= <-]. apply last_filter_elem in E. destruct E as [Hin Hn].
  apply String.eqb_eq in Hn. exists a. now rewrite asset_risk_spec.
Qed.

(** C5.  In every state the object can reach, each risk score the scorer
    computes lies between 0 and 100 and each threat of the list has its
    likelihood and its impact between 1 and 10; the two numbers derived
    from a finding are in that range whatever the finding holds. *)
Theorem scores_and_threats_bounded (s : ThreatModeling) :
  reachable s ->
  (exists scores s',
      calculate_risk_scores s = (Ok scores, s')
      /\ forall name score,
           scores !! name = Some score -> (0 <= score <= 100)%Q)
  /\ (forall t, t ∈ threats s ->
                1 <= t_likelihood t <= 10 /\ 1 <= t_impact t <= 10)
  /\ (forall finding : dict, 1 <= _calculate_likelihood finding <= 10)
  /\ (forall (finding : dict) i,
         _calculate_impact finding = Ok i -> 1 <= i <= 10).
Proof.
  intros Hr. apply reachable_wf in Hr. destruct Hr as [Ha Ht _].
  split; [|split; [|split]].
  - eexists _, _. split; [apply calculate_risk_scores_spec|].
    intros name score H. apply risk_scores_of_entry in H.
    destruct H as (a & Hin & _ & ->).
    rewrite List.Forall_forall in Ha.
    apply list_elem_of_In, Ha, classified_value in Hin.
    apply spec_score_range; [lia | now apply spec_threat_score_nonneg].
  - intros t Hin. rewrite List.Forall_forall in Ht.
    now apply list_elem_of_In, Ht in Hin.
  - apply likelihood_range.
  - apply impact_range.
Qed.

(** ** Monotonicity *)

Lemma spec_threat_score_mono before t t' after name :
  reweighted t t' -> 0 <= t_likelihood t -> 0 <= t_impact t ->
  spec_threat_score (before ++ t :: after) name
  <= spec_threat_score (before ++ t' :: after) name.
Proof.
  intros [_ _ _ Ha _ Hl Hi] H0l H0i.
  induction before as [|b before IH]; simpl.
  - rewrite Ha. case_decide; [nia | lia].
  - case_decide; lia.
Qed.

Lemma spec_score_mono ts ts' a :
  spec_threat_score ts (a_name a) <= spec_threat_score ts' (a_name a) ->
  (spec_score ts a <= spec_score ts' a)%Q.
Proof.
  intros H. unfold spec_score. apply Q.min_le_compat_l.
  apply Qmult_le_compat_r; [|apply exposure_multiplier_pos].
  rewrite <- Zle_Qle. lia.
Qed.

(** C8.  Raising the likelihood or the impact of one threat, everything
    else being the same, does not lower the score the scorer computes for
    any asset, in particular for the assets the threat affects. *)
Theorem risk_score_monotone
    (s s' : ThreatModeling) (before after : list Threat) (t t' : Threat) (a : Asset) :
  assets s' = assets s ->
  threats s = (before ++ t :: after)%list ->
  threats s' = (before ++ t' :: after)%list ->
  reweighted t t' ->
  0 <= t_likelihood t -> 0 <= t_impact t ->
  a ∈ assets s ->
  a_name a ∈ t_affected_assets t ->
  exists scores scores' score score',
    fst (calculate_risk_scores s) = Ok scores
    /\ fst (calculate_risk_scores s') = Ok scores'
    /\ scores !! a_name a = Some score
    /\ scores' !! a_name a = Some score'
    /\ (score <= score')%Q.
Proof.
  intros Ea Et Et' Hrw H0l H0i Hin _.
  rewrite !calculate_risk_scores_spec. simpl. rewrite Ea, Et, Et'.
  destruct (last_filter_some (fun b => String.eqb (a_name b) (a_name a))
              (assets s) a Hin) as [b Hb]; [apply String.eqb_refl|].
  eexists _, _, (asset_risk (before ++ t :: after) b),
    (asset_risk (before ++ t' :: after) b).
  split; [reflexivity|]. split; [reflexivity|].
  rewrite !risk_scores_of_lookup, Hb. split; [reflexivity|]. split; [reflexivity|].
  rewrite !asset_risk_spec. apply spec_score_mono.
  now apply spec_threat_score_mono.
Qed.

(** ** The WAF threat *)

(** C9, as stated, fails: with [detected = true] and a finding whose
    severity is a number, the handler of the method runs before the WAF
    result is read; the call returns an empty list and no threat is
    synthesized. *)
Lemma waf_threat_lost_on_error :
  waf_detected numeric_severity_scan = true
  /\ identify_threats numeric_severity_scan init = (Ok [], init)
  /\ threats (snd (identify_threats numeric_severity_scan init)) = [].
Proof. repeat split; reflexivity. Qed.

Lemma vuln_name_not_waf t : vuln_name t -> t_name t <> "WAF Bypass Potential".
Proof. intros [service_type H]. rewrite H. discriminate. Qed.

Lemma spec_threat_score_snoc ts w name :
  name ∉ t_affected_assets w ->
  spec_threat_score (ts ++ [w]) name = spec_threat_score ts name.
Proof.
  intros Hn. unfold spec_threat_score. rewrite foldr_app. simpl.
  now rewrite decide_False.
Qed.

Lemma risk_scores_of_ext all ts ts' :
  (forall a, asset_risk ts a = asset_risk ts' a) ->
  risk_scores_of all ts = risk_scores_of all ts'.
Proof.
  intros E. induction all as [|a all IH] using rev_ind; [reflexivity|].
  now rewrite !risk_scores_of_snoc, IH, E.
Qed.

(** A threat that lists no asset changes no score. *)
Lemma risk_scores_of_unreferenced all ts w :
  t_affected_assets w = [] ->
  risk_scores_of all (ts ++ [w]) = risk_scores_of all ts.
Proof.
  intros Hw. apply risk_scores_of_ext. intros a.
  rewrite !asset_risk_spec. unfold spec_score.
  rewrite spec_threat_score_snoc; [reflexivity|].
  rewrite Hw. intros H. inversion H.
Qed.

Lemma waf_affected_web all name :
  name ∈ t_affected_assets (waf_threat all)
  <-> exists a, a ∈ all /\ a_type a = WEB_SERVER /\ a_name a = name.
Proof.
  simpl. rewrite list_elem_of_In, in_map_iff. split.
  - intros (a & Hn & Hf). apply List.filter_In in Hf. destruct Hf as [Hin Hb].
    apply bool_decide_eq_true in Hb. exists a. now rewrite list_elem_of_In.
  - intros (a & Hin & Ht & Hn). exists a. split; [exact Hn|].
    apply List.filter_In. split; [now apply list_elem_of_In|].
    now apply bool_decide_eq_true.
Qed.

(** C9, amended.  When the WAF result has [detected] true and the
    vulnerability findings of the call are processed without an error,
    the threat identifier appends, after the threats of the findings,
    exactly one threat named WAF Bypass Potential, of level high,
    likelihood 7 and impact 8, whose affected assets are the names of the
    web servers of the inventory; with no web server in the inventory
    that list is empty and the risk scorer returns the same mapping with
    and without the threat. *)
Theorem waf_threat_synthesized (scan_results : ScanResults) (s s1 : ThreatModeling) :
  waf_detected scan_results = true ->
  vuln_phase scan_results s = (Ok tt, s1) ->
  exists w s2 found,
    identify_threats scan_results s = (Ok (threats s ++ found ++ [w])%list, s2)
    /\ threats s1 = (threats s ++ found)%list
    /\ threats s2 = (threats s ++ found ++ [w])%list
    /\ assets s2 = assets s
    /\ Forall (fun t => t_name t <> "WAF Bypass Potential") found
    /\ t_name w = "WAF Bypass Potential"
    /\ t_level w = HIGH
    /\ t_likelihood w = 7
    /\ t_impact w = 8
    /\ (forall name,
           name ∈ t_affected_assets w
           <-> exists a, a ∈ assets s /\ a_type a = WEB_SERVER /\ a_name a = name)
    /\ ((forall a, a ∈ assets s -> a_type a <> WEB_SERVER) ->
        t_affected_assets w = []
        /\ fst (calculate_risk_scores s2) = fst (calculate_risk_scores s1)).
Proof.
  intros Hd Hv.
  destruct (vuln_phase_outcome scan_results s) as (r & found & E & _ & Hn).
  rewrite Hv in E. injection E as <- ->.
  exists (waf_threat (assets s)). eexists. exists found.
  rewrite identify_threats_spec, Hv, Hd. simpl.
  rewrite <- app_assoc.
  split; [reflexivity|]. split; [reflexivity|]. split; [reflexivity|].
  split; [reflexivity|]. split.
  { eapply List.Forall_impl; [|exact Hn]. intros t. apply vuln_name_not_waf. }
  split; [reflexivity|]. split; [reflexivity|]. split; [reflexivity|].
  split; [reflexivity|]. split; [apply waf_affected_web|].
  intros Hnone.
  assert (Hw : t_affected_assets (waf_threat (assets s)) = []).
  { destruct (t_affected_assets (waf_threat (assets s))) as [|name rest] eqn:E;
      [reflexivity|].
    assert (Hin : name ∈ t_affected_assets (waf_threat (assets s))).
    { rewrite E. constructor. }
    apply waf_affected_web in Hin. destruct Hin as (a & Hin & Ht & _).
    now apply Hnone in Hin. }
  split; [exact Hw|].
  cbn [assets threats]. f_equal.
  rewrite app_assoc. now apply risk_scores_of_unreferenced.
Qed.

(** ** A malformed record in a batch *)

(** C3, as stated, fails: of three records the second lacks its service
    key; the two others alone are classified as a web server and a
    domain controller, but with the malformed record between them the
    call returns an empty list and the record after it is never
    classified. *)
Lemma malformed_record_aborts_batch :
  lacks_service ("10.0.0.5", VInt 8080, nameless_record)
  /\ Forall has_service (records_of batch_without_malformed)
  /\ (exists l, fst (analyze_assets batch_without_malformed init) = Ok l
                /\ map a_name l = ["Web Server (10.0.0.5:443)";
                                   "Domain Controller (10.0.0.5)"])
  /\ fst (analyze_assets batch_with_malformed init) = Ok []
  /\ map a_name (assets (snd (analyze_assets batch_with_malformed init)))
     = ["Web Server (10.0.0.5:443)"].
Proof.
  split; [reflexivity|]. split.
  { repeat first [apply List.Forall_nil | apply List.Forall_cons];
      eexists; reflexivity. }
  split; [eexists; split; reflexivity|]. split; reflexivity.
Qed.

(** C3, amended.  A record that lacks its service key ends the batch at
    that record: the call returns an empty list, the inventory has grown
    by the assets of the records visited before it and by nothing else,
    so the records after it are not classified. *)
Theorem malformed_record_stops_batch
    (scan_results : ScanResults) (pre post : list PortRecord) (bad : PortRecord)
    (s : ThreatModeling) :
  records_of scan_results = (pre ++ bad :: post)%list ->
  Forall has_service pre ->
  lacks_service bad ->
  fst (analyze_assets scan_results s) = Ok []
  /\ assets (snd (analyze_assets scan_results s)) = (assets s ++ assets_of pre)%list
  /\ threats (snd (analyze_assets scan_results s)) = threats s.
Proof.
  intros E Hpre Hbad.
  rewrite (analyze_assets_aborts scan_results pre bad post) by assumption.
  repeat split.
Qed.

(** ** The failed run is not atomic *)

Lemma identify_minimal_finding service_type s :
  exists t s2,
    identify_threats (minimal_finding_scan service_type) s
    = (Ok (threats s ++ [t])%list, s2)
    /\ threats s2 = (threats s ++ [t])%list
    /\ t_affected_assets t
       = map a_name
           (List.filter
              (fun asset => Py.in_list (VStr service_type) (a_services asset))
              (assets s)).
Proof. eexists _, _. split; [reflexivity|]. split; reflexivity. Qed.

Lemma critical_entry_listed all a :
  a ∈ all -> 8 <= a_value a -> critical_entry a ∈ report_critical_assets all.
Proof.
  intros Hin Hv. unfold report_critical_assets.
  apply list_elem_of_In, in_map_iff. exists a. split; [reflexivity|].
  apply List.filter_In. split; [now apply list_elem_of_In | now apply Z.leb_le].
Qed.

Lemma exposed_services_listed all a sv :
  a ∈ all -> a_exposed a = true -> sv ∈ a_services a ->
  sv ∈ report_exposed_services all.
Proof.
  intros Hin He Hs. unfold report_exposed_services.
  apply list_elem_of_In, in_concat. exists (a_services a).
  split; [|now apply list_elem_of_In].
  apply in_map. apply List.filter_In. split; [now apply list_elem_of_In | exact He].
Qed.

(** C10.  When a record without its service key stops the batch,
    [analyze_assets] returns an empty list, yet the assets of the records
    before it stay in the inventory: the threat identifier links them to
    findings on their service, the risk scorer scores them and the
    summarizer lists them.  The result store is left as it was, so the
    exported document is the one of before the call and its asset list
    is not the list of the grown inventory. *)
Theorem failed_batch_is_not_atomic
    (json_dump : Results -> result string)
    (scan_results : ScanResults) (pre post : list PortRecord) (bad : PortRecord)
    (s : ThreatModeling) :
  reachable s ->
  records_of scan_results = (pre ++ bad :: post)%list ->
  Forall has_service pre ->
  lacks_service bad ->
  let s' := snd (analyze_assets scan_results s) in
  fst (analyze_assets scan_results s) = Ok []
  /\ assets s' = (assets s ++ assets_of pre)%list
  /\ results s' = results s
  /\ export_results json_dump s' = export_results json_dump s
  /\ (assets_of pre <> [] ->
      r_assets (results s') <> Some (map _asset_to_dict (assets s')))
  /\ forall a, a ∈ assets_of pre ->
       (forall service_type,
           Py.in_list (VStr service_type) (a_services a) = true ->
           exists t,
             threats (snd (identify_threats (minimal_finding_scan service_type) s'))
             = (threats s' ++ [t])%list
             /\ a_name a ∈ t_affected_assets t)
       /\ (exists scores,
              fst (calculate_risk_scores s') = Ok scores
              /\ scores !! a_name a = Some (spec_score (threats s) a))
       /\ match fst (generate_attack_surface_report s') with
          | Ok (Some rep) =>
              critical_entry a ∈ critical_assets rep
              /\ (forall sv, sv ∈ a_services a -> sv ∈ exposed_services rep)
          | Ok None =>
              exists e, all_vector_suggestions (report_vectors (threats s)) = Raise e
          | Raise _ => False
          end.
Proof.
  intros Hr E Hpre Hbad s'.
  assert (Hs' : s' = add_assets (assets_of pre) s).
  { subst s'. now rewrite (analyze_assets_aborts scan_results pre bad post). }
  assert (Hwf' : wf s').
  { subst s'. apply reachable_wf.
    exact (reachable_call (AnalyzeAssets scan_results) s Hr). }
  apply reachable_wf in Hr. clearbody s'. subst s'.
  rewrite (analyze_assets_aborts scan_results pre bad post) by assumption.
  split; [reflexivity|]. split; [reflexivity|]. split; [reflexivity|].
  split; [reflexivity|]. split.
  { intros Hne Hst. cbn [add_assets results assets] in Hst.
    apply (wf_stored s Hr) in Hst. rewrite length_map, length_app in Hst.
    destruct (assets_of pre); [congruence | simpl in Hst; lia]. }
  intros a Hin.
  assert (Hin' : a ∈ assets (add_assets (assets_of pre) s)).
  { cbn [add_assets assets]. apply elem_of_app. now right. }
  assert (Hc : classified a).
  { pose proof (assets_of_classified pre) as H.
    rewrite List.Forall_forall in H. now apply H, list_elem_of_In. }
  split; [|split].
  - intros service_type Hsv.
    destruct (identify_minimal_finding service_type (add_assets (assets_of pre) s))
      as (t & s2 & Hid & Ht & Haff).
    exists t. rewrite Hid. split; [exact Ht|].
    rewrite Haff. apply list_elem_of_In, in_map. apply List.filter_In.
    split; [now apply list_elem_of_In | exact Hsv].
  - eexists. rewrite calculate_risk_scores_spec. split; [reflexivity|].
    cbn [add_assets threats].
    apply (risk_scores_of_classified _ _ a (wf_assets _ Hwf') Hin').
  - rewrite generate_attack_surface_report_spec.
    unfold _generate_mitigation_suggestions. cbn [add_assets threats].
    destruct (all_vector_suggestions (report_vectors (threats s))) as [more|e].
    + cbn [fst critical_assets exposed_services]. split.
      * apply critical_entry_listed; [exact Hin' | apply classified_value in Hc; lia].
      * intros sv Hsv. apply (exposed_services_listed _ a); [exact Hin' | apply Hc | exact Hsv].
    + cbn [fst]. now exists e.
Qed.

(** * Concrete runs *)

Lemma sample_state_reachable : reachable sample_state.
Proof. repeat apply reachable_call. apply reachable_init. Qed.

Lemma hand_made_names_settle a :
  a ∈ assets hand_made_state -> name_settles_score (assets hand_made_state) a.
Proof.
  intros Ha b Hb E. cbn [assets hand_made_state] in Ha, Hb.
  repeat (apply elem_of_cons in Ha; destruct Ha as [->|Ha]);
    [| |inversion Ha];
    repeat (apply elem_of_cons in Hb; destruct Hb as [->|Hb]);
    try (now inversion Hb); try discriminate E; split; reflexivity.
Qed.

Lemma risk_score_formula_witness :
  (exists scores s',
      calculate_risk_scores hand_made_state = (Ok scores, s')
      /\ r_risk_scores (results s') = Some scores
      /\ scores !! "Mail Server (10.0.0.9)" = Some (Qmin 100 ((50 + 22) * 1))%Q)
  /\ (exists scores s',
         calculate_risk_scores hand_made_state = (Ok scores, s')
         /\ r_risk_scores (results s') = Some scores
         /\ scores !! "Router (10.0.0.1)" = Some (Qmin 100 ((20 + 10) * (3 # 2)))%Q).
Proof.
  assert (Hm : mail_server ∈ assets hand_made_state) by (simpl; constructor).
  assert (Hr : router ∈ assets hand_made_state)
    by (simpl; apply list_elem_of_further; constructor).
  split.
  - exact (risk_score_formula hand_made_state mail_server Hm
             (hand_made_names_settle mail_server Hm)).
  - exact (risk_score_formula hand_made_state router Hr
             (hand_made_names_settle router Hr)).
Defined.

Lemma scores_and_threats_bounded_witness :
  reachable sample_state
  /\ (exists scores s',
         calculate_risk_scores sample_state = (Ok scores, s')
         /\ forall name score,
              scores !! name = Some score -> (0 <= score <= 100)%Q)
  /\ (forall t, t ∈ threats sample_state ->
                1 <= t_likelihood t <= 10 /\ 1 <= t_impact t <= 10).
Proof.
  pose proof sample_state_reachable as Hr.
  split; [exact Hr|].
  destruct (scores_and_threats_bounded sample_state Hr) as (Hs & Ht & _).
  split; [exact Hs | exact Ht].
Defined.

Lemma risk_score_monotone_witness :
  exists scores scores' score score',
    fst (calculate_risk_scores (state_with [sample_threat 5 5])) = Ok scores
    /\ fst (calculate_risk_scores (state_with [sample_threat 6 5])) = Ok scores'
    /\ scores !! a_name sample_asset = Some score
    /\ scores' !! a_name sample_asset = Some score'
    /\ (score <= score')%Q.
Proof.
  apply (risk_score_monotone
           (state_with [sample_threat 5 5]) (state_with [sample_threat 6 5])
           [] [] (sample_threat 5 5) (sample_threat 6 5) sample_asset).
  - reflexivity.
  - reflexivity.
  - reflexivity.
  - split; simpl; try reflexivity; lia.
  - simpl. lia.
  - simpl. lia.
  - simpl. constructor.
  - simpl. constructor.
Defined.

Lemma waf_threat_synthesized_witness :
  waf_detected sample_scan = true
  /\ vuln_phase sample_scan sample_inventory = (Ok tt, sample_after_findings)
  /\ exists w s2 found,
       identify_threats sample_scan sample_inventory
       = (Ok (threats sample_inventory ++ found ++ [w])%list, s2)
       /\ Forall (fun t => t_name t <> "WAF Bypass Potential") found
       /\ t_name w = "WAF Bypass Potential"
       /\ t_level w = HIGH
       /\ t_likelihood w = 7
       /\ t_impact w = 8.
Proof.
  assert (Hd : waf_detected sample_scan = true) by reflexivity.
  assert (Hv : vuln_phase sample_scan sample_inventory
               = (Ok tt, sample_after_findings)).
  { vm_compute. reflexivity. }
  split; [exact Hd|]. split; [exact Hv|].
  destruct (waf_threat_synthesized sample_scan sample_inventory _ Hd Hv)
    as (w & s2 & found & Hid & _ & _ & _ & Hf & Hn & Hl & Hli & Him & _).
  exists w, s2, found. repeat split; assumption.
Defined.

Lemma malformed_record_stops_batch_witness :
  fst (analyze_assets batch_with_malformed init) = Ok []
  /\ assets (snd (analyze_assets batch_with_malformed init))
     = (assets init ++ assets_of [("10.0.0.5", VInt 443, https_record)])%list
  /\ threats (snd (analyze_assets batch_with_malformed init)) = threats init.
Proof.
  apply (malformed_record_stops_batch batch_with_malformed
           [("10.0.0.5", VInt 443, https_record)]
           [("10.0.0.5", VInt 636, ldap_record)]
           ("10.0.0.5", VInt 8080, nameless_record) init).
  - reflexivity.
  - apply List.Forall_cons; [|apply List.Forall_nil]. eexists. reflexivity.
  - reflexivity.
Defined.

Lemma failed_batch_is_not_atomic_witness :
  let s' := snd (analyze_assets batch_with_malformed init) in
  fst (analyze_assets batch_with_malformed init) = Ok []
  /\ assets s' = (assets init ++ assets_of [("10.0.0.5", VInt 443, https_record)])%list
  /\ results s' = results init
  /\ r_assets (results s') = None.
Proof.
  destruct (failed_batch_is_not_atomic (fun _ => Ok "")
              batch_with_malformed
              [("10.0.0.5", VInt 443, https_record)]
              [("10.0.0.5", VInt 636, ldap_record)]
              ("10.0.0.5", VInt 8080, nameless_record) init)
    as (H1 & H2 & H3 & _).
  - apply reachable_init.
  - reflexivity.
  - apply List.Forall_cons; [|apply List.Forall_nil]. eexists. reflexivity.
  - reflexivity.
  - intros s'. split; [exact H1|]. split; [exact H2|]. split; [exact H3|].
    subst s'. rewrite H3. reflexivity.
Defined.

(** The scenarios of the specification. *)

Example scenario_https_is_web_server :
  map (fun a => (a_name a, a_type a, a_value a, a_exposed a))
      (assets sample_inventory)
  = [("Web Server (10.0.0.5:443)", WEB_SERVER, 8, true)].
Proof. reflexivity. Qed.

Example scenario_rce_easy :
  map (fun t => (t_level t, t_likelihood t, t_impact t))
      (threats (snd (vuln_phase sample_scan sample_inventory)))
  = [(CRITICAL, 10, 5)]
  /\ asset_risk (threats (snd (vuln_phase sample_scan sample_inventory)))
       sample_asset = 100%Q.
Proof. split; reflexivity. Qed.

Example scenario_unexposed_without_threats :
  asset_risk []
    {| a_name := "Mail Server (10.0.0.9)";
       a_type := MAIL_SERVER;
       a_value := 5;
       a_exposed := false;
       a_services := [VStr "smtp"];
       a_description := "" |}
  = (50 * 1)%Q.
Proof. reflexivity. Qed.

Example scenario_waf_without_web_server :
  map (fun t => (t_name t, t_affected_assets t))
      (threats (snd (identify_threats
                       {| port_scan := None; vuln_scan := None;
                          waf_bypass := waf_bypass sample_scan |} init)))
  = [("WAF Bypass Potential", [])].
Proof. reflexivity. Qed.

Example scenario_nothing_vulnerable :
  identify_threats
    {| port_scan := None;
       vuln_scan :=
         Some [("https",
                ToolFindings
                  [("nikto", FindingsDict (<["vulnerable" := VBool false]> ∅));
                   ("sqlmap", FindingsDict (<["vulnerable" := VBool false]> ∅))])];
       waf_bypass := None |} init
  = (Ok [], {| results := set_r_threats [] (results init);
               assets := [];
               threats := [] |}).
Proof. reflexivity. Qed.

Example scenario_missing_service_key :
  classify_port "dc1" (VInt 389) nameless_record init
  = (Raise (KeyError "service"), init).
Proof. reflexivity. Qed.

(** * Further properties of the threat model *)

(** ** The vulnerability loop over its findings *)

Lemma vuln_phase_findings scan_results s :
  vuln_phase scan_results s = for_each (findings_of scan_results) threat_of_record s.
Proof.
  unfold vuln_phase, findings_of.
  destruct (vuln_scan scan_results) as [vs|]; [|reflexivity].
  rewrite for_each_flat_map. apply for_each_ext.
  intros [service_type res] s'. unfold threats_of_service, service_findings.
  destruct res as [tools|v]; [|reflexivity].
  rewrite for_each_map. apply for_each_ext. now intros [tool findings] s''.
Qed.

Lemma threat_of_record_spec r s :
  threat_of_record r s =
  match threats_of_record (assets s) r with
  | Ok l => (Ok tt, add_threats l s)
  | Raise e => (Raise e, s)
  end.
Proof.
  destruct r as [service_type [findings|v]]; [|reflexivity].
  unfold threats_of_record, threat_of_record, threat_of_findings. cbn [fst snd].
  destruct (Py.truthy _).
  - unfold bind, lift.
    destruct (_determine_threat_level findings) as [level|e]; [|reflexivity].
    destruct (_calculate_impact findings) as [impact|e]; reflexivity.
  - cbn. now rewrite add_threats_nil.
Qed.

Lemma findings_all_ok rs s :
  Forall (fun r => is_ok (threats_of_record (assets s) r)) rs ->
  for_each rs threat_of_record s = (Ok tt, add_threats (threats_of (assets s) rs) s).
Proof.
  intros H. remember (assets s) as all eqn:Ea. revert s Ea.
  induction H as [|r rs Hr _ IH]; intros s Ea; simpl.
  - now rewrite add_threats_nil.
  - unfold bind. rewrite threat_of_record_spec, <- Ea.
    destruct (threats_of_record all r) as [l|e]; [|destruct Hr].
    rewrite IH by exact Ea. now rewrite add_threats_app.
Qed.

Lemma findings_abort pre bad post s e :
  Forall (fun r => is_ok (threats_of_record (assets s) r)) pre ->
  threats_of_record (assets s) bad = Raise e ->
  for_each (pre ++ bad :: post) threat_of_record s
  = (Raise e, add_threats (threats_of (assets s) pre) s).
Proof.
  intros Hpre Hbad. rewrite for_each_app. unfold bind at 1.
  rewrite findings_all_ok by assumption. simpl. unfold bind.
  rewrite threat_of_record_spec. cbn [add_threats assets]. now rewrite Hbad.
Qed.

Lemma not_vulnerable_no_threat all r :
  has_get r = true -> vulnerable r = false -> threats_of_record all r = Ok [].
Proof.
  destruct r as [service_type [findings|v]]; unfold has_get, vulnerable; cbn [snd];
    [intros _ H | discriminate].
  unfold threats_of_record, threat_of_record, threat_of_findings. cbn [fst snd].
  now rewrite H.
Qed.

(** A value that is not a dictionary raises at the lookup of [get]. *)
Lemma no_get_raises all r :
  has_get r = false -> threats_of_record all r = Raise (AttributeError "get").
Proof.
  destruct r as [service_type [findings|v]]; unfold has_get; cbn [snd];
    [discriminate | reflexivity].
Qed.

Lemma first_failing {A} (p : A -> bool) (l : list A) :
  forallb p l = false ->
  exists pre bad post,
    l = (pre ++ bad :: post)%list /\ forallb p pre = true /\ p bad = false.
Proof.
  induction l as [|x l IH]; [discriminate|]. cbn [forallb].
  destruct (p x) eqn:E; cbn [andb].
  - intros H. destruct (IH H) as (pre & bad & post & -> & Hpre & Hbad).
    exists (x :: pre), bad, post. cbn [forallb]. now rewrite E, Hpre.
  - intros _. now exists [], x, l.
Qed.

(** Dictionaries that are not marked vulnerable contribute nothing and
    raise nothing. *)
Lemma harmless_records all rs :
  forallb has_get rs = true ->
  Forall (fun r => vulnerable r = false) rs ->
  Forall (fun r => is_ok (threats_of_record all r)) rs /\ threats_of all rs = [].
Proof.
  intros Hg Hv. induction Hv as [|r rs Hr _ IH]; [now split|].
  cbn [forallb] in Hg. apply andb_true_iff in Hg. destruct Hg as [Hgr Hg].
  destruct (IH Hg) as [Hok Hnone]. split.
  - apply List.Forall_cons; [|exact Hok]. now rewrite not_vulnerable_no_threat.
  - unfold threats_of in *. cbn [flat_map].
    rewrite not_vulnerable_no_threat by assumption. exact Hnone.
Qed.

(** ** What the scorer returns *)

Lemma Qmin_100_saturated x : (100 <= x)%Q -> Qmin 100 x = 100%Q.
Proof.
  intros H. pose proof (proj1 (Qle_alt _ _) H) as H'.
  unfold Qmin, GenericMinMax.gmin.
  destruct (100 ?= x)%Q; [reflexivity | reflexivity | now destruct H'].
Qed.

Lemma classified_score_saturated ts a :
  classified a -> 0 <= spec_threat_score ts (a_name a) ->
  spec_score ts a = 100%Q.
Proof.
  intros Hc Hs. pose proof (classified_value a Hc) as Hv.
  destruct Hc as [_ He]. unfold spec_score. rewrite He.
  apply Qmin_100_saturated. unfold Qle, Qmult, inject_Z. simpl. lia.
Qed.

(** X1.  Every asset the classifier can produce has a value of at least 8
    and is exposed, so its score before the cap is at least 120: in every
    state the object can reach, each entry of the mapping returned by the
    risk scorer is exactly 100, whatever the threats are. *)
Theorem every_score_is_capped (s : ThreatModeling) :
  reachable s ->
  exists scores s',
    calculate_risk_scores s = (Ok scores, s')
    /\ forall name score, scores !! name = Some score -> score = 100%Q.
Proof.
  intros Hr. apply reachable_wf in Hr. destruct Hr as [Ha Ht _].
  eexists _, _. split; [apply calculate_risk_scores_spec|].
  intros name score H. apply risk_scores_of_entry in H.
  destruct H as (a & Hin & _ & ->).
  rewrite List.Forall_forall in Ha.
  apply classified_score_saturated.
  - now apply Ha, list_elem_of_In.
  - now apply spec_threat_score_nonneg.
Qed.

(** X2.  The mapping returned by the risk scorer has one entry for each
    name carried by an asset of the inventory and no other entry; two
    assets of one name share an entry, and an empty inventory gives an
    empty mapping. *)
Theorem score_keys_are_asset_names (s : ThreatModeling) :
  exists scores s',
    calculate_risk_scores s = (Ok scores, s')
    /\ (forall name,
           is_Some (scores !! name) <-> exists a, a ∈ assets s /\ a_name a = name)
    /\ (size scores <= length (assets s))%nat
    /\ (assets s = [] -> scores = ∅).
Proof.
  eexists _, _. split; [apply calculate_risk_scores_spec|]. split; [|split].
  - intros name. rewrite risk_scores_of_lookup. split.
    + intros [q Hq]. destruct (last _) as [a|] eqn:E; [|discriminate].
      apply last_filter_elem in E. destruct E as [Hin Hn].
      apply String.eqb_eq in Hn. now exists a.
    + intros (a & Hin & Hn).
      destruct (last_filter_some (fun b => String.eqb (a_name b) name) (assets s) a)
        as [b Hb]; [exact Hin | now apply String.eqb_eq|].
      rewrite Hb. now eexists.
  - induction (assets s) as [|a all IH] using rev_ind; [reflexivity|].
    rewrite risk_scores_of_snoc, length_app. simpl.
    rewrite map_size_insert.
    destruct (risk_scores_of all (threats s) !! a_name a); simpl; lia.
  - now intros ->.
Qed.

(** X3.  Of two assets that differ only in exposure, the exposed one is
    scored at least as high as the other, provided the sum of the base
    score and the threat score is not negative. *)
Theorem exposed_scores_no_lower (ts : list Threat) (a b : Asset) :
  a_name b = a_name a ->
  a_value b = a_value a ->
  a_exposed a = false ->
  a_exposed b = true ->
  0 <= a_value a * 10 + spec_threat_score ts (a_name a) ->
  (asset_risk ts a <= asset_risk ts b)%Q.
Proof.
  intros Hn Hv Ha Hb H0. rewrite !asset_risk_spec. unfold spec_score.
  rewrite Hn, Hv, Ha, Hb. apply Q.min_le_compat_l.
  unfold Qle, Qmult, inject_Z. simpl. lia.
Qed.

(** ** The inventory and the threat list only grow *)

(** X4.  No method removes, reorders or rewrites an asset or a threat:
    after any call the inventory and the threat list are the ones of before
    the call with new entries appended at the end. *)
Theorem lists_are_append_only (c : call) (s : ThreatModeling) :
  exists new_assets new_threats,
    assets (after c s) = (assets s ++ new_assets)%list
    /\ threats (after c s) = (threats s ++ new_threats)%list.
Proof.
  destruct c as [sr|sr| |]; unfold after.
  - destruct (first_malformed (records_of sr))
      as [Hok|(pre & bad & post & E & Hpre & Hbad)].
    + rewrite analyze_assets_completes by assumption.
      exists (assets_of (records_of sr)), []. simpl. now rewrite app_nil_r.
    + rewrite (analyze_assets_aborts sr pre bad post) by assumption.
      exists (assets_of pre), []. simpl. now rewrite app_nil_r.
  - rewrite identify_threats_spec.
    destruct (vuln_phase_outcome sr s) as (r & l & -> & _ & _).
    destruct r as [[]|e].
    + destruct (waf_detected sr).
      * exists [], (l ++ [waf_threat (assets s)])%list. simpl.
        now rewrite app_nil_r, app_assoc.
      * exists [], l. simpl. now rewrite app_nil_r.
    + exists [], l. simpl. now rewrite app_nil_r.
  - rewrite calculate_risk_scores_spec. exists [], []. simpl. now rewrite !app_nil_r.
  - rewrite generate_attack_surface_report_spec.
    destruct (_generate_mitigation_suggestions _ _);
      exists [], []; simpl; now rewrite !app_nil_r.
Qed.

(** ** Repeated and resumed classification *)

(** X5.  The classifier does not look at the inventory: classifying the
    same well-formed port scan a second time appends the same assets once
    more, so each of them is in the inventory twice. *)
Theorem reclassification_duplicates (scan_results : ScanResults) (s : ThreatModeling) :
  Forall has_service (records_of scan_results) ->
  analyze_assets scan_results (snd (analyze_assets scan_results s))
  = (Ok (assets s ++ assets_of (records_of scan_results)
                  ++ assets_of (records_of scan_results))%list,
     {| results :=
          set_r_assets
            (map _asset_to_dict
               (assets s ++ assets_of (records_of scan_results)
                         ++ assets_of (records_of scan_results)))
            (results s);
        assets := (assets s ++ assets_of (records_of scan_results)
                            ++ assets_of (records_of scan_results))%list;
        threats := threats s |}).
Proof.
  intros H. rewrite !analyze_assets_completes by assumption.
  cbn [snd assets threats results]. rewrite <- !app_assoc. reflexivity.
Qed.

(** X6.  The assets that a failed batch left in the inventory are
    published by the next batch that completes: after it, the asset list
    of the result store renders the whole inventory, the leftovers of the
    failed batch included. *)
Theorem next_batch_publishes_leftovers
    (failed next : ScanResults) (pre post : list PortRecord) (bad : PortRecord)
    (s : ThreatModeling) :
  records_of failed = (pre ++ bad :: post)%list ->
  Forall has_service pre ->
  lacks_service bad ->
  Forall has_service (records_of next) ->
  let s2 := snd (analyze_assets next (snd (analyze_assets failed s))) in
  assets s2 = (assets s ++ assets_of pre ++ assets_of (records_of next))%list
  /\ r_assets (results s2) = Some (map _asset_to_dict (assets s2)).
Proof.
  intros E Hpre Hbad Hnext.
  rewrite (analyze_assets_aborts failed pre bad post) by assumption.
  rewrite analyze_assets_completes by assumption.
  cbn. rewrite <- app_assoc. now split.
Qed.

(** ** Threats and the inventory *)

Lemma threats_of_record_known all r l :
  threats_of_record all r = Ok l -> Forall (references_known all) l.
Proof.
  destruct r as [service_type [findings|v]]; [|discriminate].
  unfold threats_of_record, threat_of_record, threat_of_findings. cbn [fst snd].
  destruct (Py.truthy _).
  - unfold bind, lift.
    destruct (_determine_threat_level findings) as [level|e]; [|discriminate].
    destruct (_calculate_impact findings) as [impact|e]; [|discriminate].
    cbn. intros [= <-]. apply List.Forall_cons; [|apply List.Forall_nil].
    intros name Hin. cbn in Hin.
    apply list_elem_of_In, in_map_iff in Hin. destruct Hin as (a & Hn & Hf).
    apply List.filter_In in Hf. exists a. split; [apply list_elem_of_In; tauto | exact Hn].
  - cbn. intros [= <-]. apply List.Forall_nil.
Qed.

Lemma threats_of_known all rs : Forall (references_known all) (threats_of all rs).
Proof.
  unfold threats_of. induction rs as [|r rs IH]; simpl; [apply List.Forall_nil|].
  apply Forall_app. split; [|exact IH].
  destruct (threats_of_record all r) as [l|e] eqn:E;
    [now apply threats_of_record_known in E | apply List.Forall_nil].
Qed.

(** A batch of findings either raises nowhere or has a first finding that
    raises. *)
Lemma first_raising all (rs : list FindingRecord) :
  Forall (fun r => is_ok (threats_of_record all r)) rs \/
  exists pre bad post e,
    rs = (pre ++ bad :: post)%list
    /\ Forall (fun r => is_ok (threats_of_record all r)) pre
    /\ threats_of_record all bad = Raise e.
Proof.
  induction rs as [|r rs IH]; [left; constructor|].
  destruct (threats_of_record all r) as [l|e] eqn:E.
  - destruct IH as [IH|(pre & bad & post & e & -> & Hpre & Hbad)].
    + left. constructor; [now rewrite E | exact IH].
    + right. exists (r :: pre), bad, post, e. repeat split; [|exact Hbad].
      constructor; [now rewrite E | exact Hpre].
  - right. exists [], r, rs, e. repeat split; [constructor | exact E].
Qed.

(** The threats a run of the vulnerability loop appends. *)
Lemma vuln_phase_appends scan_results s :
  exists r rs,
    vuln_phase scan_results s = (r, add_threats (threats_of (assets s) rs) s).
Proof.
  rewrite vuln_phase_findings.
  destruct (first_raising (assets s) (findings_of scan_results))
    as [Hok|(pre & bad & post & e & E & Hpre & Hbad)].
  - eexists _, _. now apply findings_all_ok.
  - rewrite E. exists (Raise e), pre. now apply findings_abort.
Qed.

Lemma references_known_grow all more t :
  references_known all t -> references_known (all ++ more) t.
Proof.
  intros H name Hin. destruct (H name Hin) as (a & Ha & Hn).
  exists a. split; [apply elem_of_app; now left | exact Hn].
Qed.

Lemma waf_threat_known all : references_known all (waf_threat all).
Proof.
  intros name Hin. apply waf_affected_web in Hin.
  destruct Hin as (a & Ha & _ & Hn). now exists a.
Qed.

Lemma references_known_after c s :
  Forall (references_known (assets s)) (threats s) ->
  Forall (references_known (assets (after c s))) (threats (after c s)).
Proof.
  intros H. destruct c as [sr|sr| |]; unfold after.
  - assert (Hg : exists la,
               assets (snd (analyze_assets sr s)) = (assets s ++ la)%list
               /\ threats (snd (analyze_assets sr s)) = threats s).
    { destruct (first_malformed (records_of sr))
        as [Hok|(pre & bad & post & E & Hpre & Hbad)].
      - rewrite analyze_assets_completes by assumption. now eexists.
      - rewrite (analyze_assets_aborts sr pre bad post) by assumption.
        now eexists. }
    destruct Hg as (la & -> & ->). eapply List.Forall_impl; [|exact H].
    intros t. apply references_known_grow.
  - rewrite identify_threats_spec.
    destruct (vuln_phase_appends sr s) as (r & rs & ->).
    assert (Hl : Forall (references_known (assets s))
                   (threats s ++ threats_of (assets s) rs)).
    { apply Forall_app. split; [exact H | apply threats_of_known]. }
    destruct r as [[]|e]; cbn [add_threats assets threats]; [|exact Hl].
    destruct (waf_detected sr); [|exact Hl].
    apply Forall_app. split; [exact Hl|].
    apply List.Forall_cons; [apply waf_threat_known | apply List.Forall_nil].
  - rewrite calculate_risk_scores_spec. exact H.
  - rewrite generate_attack_surface_report_spec.
    now destruct (_generate_mitigation_suggestions _ _).
Qed.

(** X7.  A threat never refers to an asset that is not there: in every
    state the object can reach, each name listed in the affected assets
    of a threat is the name of an asset of the inventory. *)
Theorem threats_reference_inventory (s : ThreatModeling) :
  reachable s ->
  forall t name,
    t ∈ threats s -> name ∈ t_affected_assets t ->
    exists a, a ∈ assets s /\ a_name a = name.
Proof.
  intros Hr.
  assert (H : Forall (references_known (assets s)) (threats s)).
  { induction Hr as [|c s _ IH]; [apply List.Forall_nil|].
    now apply references_known_after. }
  intros t name Ht Hn. rewrite List.Forall_forall in H.
  apply list_elem_of_In in Ht. exact (H t Ht name Hn).
Qed.

(** X8.  Findings that are not marked vulnerable are not inspected any
    further.  Take a scan in which no value under a tool is a dictionary
    marked vulnerable, and no WAF detected.  When every such value is a
    dictionary, the identifier appends nothing and completes, whatever
    the severity and impact fields hold: it returns the threat list as it
    was and stores its rendering.  When one of them is not a dictionary,
    the lookup of [get] fails on it: the call returns an empty list and
    the object is left as it was, the result store included. *)
Theorem nothing_vulnerable_nothing_added (scan_results : ScanResults) (s : ThreatModeling) :
  Forall (fun r => vulnerable r = false) (findings_of scan_results) ->
  waf_detected scan_results = false ->
  identify_threats scan_results s
  = if forallb has_get (findings_of scan_results)
    then (Ok (threats s),
          {| results := set_r_threats (map _threat_to_dict (threats s)) (results s);
             assets := assets s;
             threats := threats s |})
    else (Ok [], s).
Proof.
  intros Hv Hw. rewrite identify_threats_spec, vuln_phase_findings, Hw.
  destruct (forallb has_get (findings_of scan_results)) eqn:Hg.
  - destruct (harmless_records (assets s) _ Hg Hv) as [Hok Hnone].
    rewrite findings_all_ok by exact Hok. rewrite Hnone, add_threats_nil.
    reflexivity.
  - destruct (first_failing _ _ Hg) as (pre & bad & post & E & Hpre & Hbad).
    rewrite E in Hv |- *. apply Forall_app in Hv. destruct Hv as [Hvpre _].
    destruct (harmless_records (assets s) _ Hpre Hvpre) as [Hok Hnone].
    rewrite (findings_abort pre bad post s (AttributeError "get"));
      [|exact Hok | now apply no_get_raises].
    now rewrite Hnone, add_threats_nil.
Qed.

(** X9.  A finding that raises stops the identifier like a malformed
    record stops the classifier: the call returns an empty list, the
    threats of the findings visited before it stay in the threat list,
    the findings after it and the WAF result are not read, and the threat
    list of the result store is not refreshed. *)
Theorem raising_finding_stops_identifier
    (scan_results : ScanResults) (pre post : list FindingRecord)
    (bad : FindingRecord) (e : exn) (s : ThreatModeling) :
  findings_of scan_results = (pre ++ bad :: post)%list ->
  Forall (fun r => is_ok (threats_of_record (assets s) r)) pre ->
  threats_of_record (assets s) bad = Raise e ->
  identify_threats scan_results s
  = (Ok [], {| results := results s;
               assets := assets s;
               threats := (threats s ++ threats_of (assets s) pre)%list |}).
Proof.
  intros E Hpre Hbad.
  rewrite identify_threats_spec, vuln_phase_findings, E.
  now rewrite (findings_abort pre bad post s e).
Qed.

(** ** Numbers and vectors of one finding *)

(** X10.  The clamps of the two estimates never act: the likelihood is
    exactly 5 plus its two adjustments and lies between 3 and 10, and the
    impact, when the field can be read, is one of 5, 7, 8 and 9.  The low
    end of the documented range 1..10 is never produced and an impact of
    10 neither. *)
Theorem attained_ranges (finding : dict) :
  _calculate_likelihood finding
  = 5 + spec_type_adjustment finding + spec_difficulty_adjustment finding
  /\ 3 <= _calculate_likelihood finding <= 10
  /\ match _calculate_impact finding with
     | Ok impact => impact = 5 \/ impact = 7 \/ impact = 8 \/ impact = 9
     | Raise _ => exists v, finding !! "impact" = Some v /\ is_str v = false
     end.
Proof.
  assert (Hl : _calculate_likelihood finding
               = 5 + spec_type_adjustment finding + spec_difficulty_adjustment finding
               /\ 3 <= 5 + spec_type_adjustment finding
                       + spec_difficulty_adjustment finding <= 10).
  { unfold _calculate_likelihood, spec_type_adjustment, spec_difficulty_adjustment.
    destruct (finding !! "type") as [ty|];
      destruct (finding !! "difficulty") as [d|];
      rewrite ?py_in_strs_elem_of, ?py_eqb_str; simpl map;
      repeat case_bool_decide; repeat case_decide; try lia; tauto. }
  destruct Hl as [Hl Hr]. split; [exact Hl|]. split; [now rewrite Hl|].
  unfold _calculate_impact.
  destruct (finding !! "impact") as [[|b|z|s]|]; simpl;
    try (eexists; split; [reflexivity | reflexivity]).
  - repeat match goal with
           | |- context [if ?c then _ else _] => destruct c
           end; simpl; lia.
  - lia.
Qed.

Lemma in_list_filter x p l :
  Py.in_list x l = false -> Py.in_list x (List.filter p l) = false.
Proof.
  unfold Py.in_list. induction l as [|y l IH]; simpl; [reflexivity|].
  intros H. apply orb_false_iff in H. destruct H as [Hy Hl].
  destruct (p y); simpl; [rewrite Hy|]; now apply IH.
Qed.

Lemma py_distinct_filter p l : py_distinct l -> py_distinct (List.filter p l).
Proof.
  induction l as [|x l IH]; simpl; [easy|]. intros [Hx Hl].
  destruct (p x); simpl; [split; [now apply in_list_filter | now apply IH] | now apply IH].
Qed.

Lemma in_list_filter_out x l :
  Py.in_list x (List.filter (fun y => negb (Py.eqb x y)) l) = false.
Proof.
  unfold Py.in_list. induction l as [|y l IH]; simpl; [reflexivity|].
  destruct (Py.eqb x y) eqn:E; simpl; [exact IH | now rewrite E].
Qed.

(** [list(set(l))] holds no two values that are equal. *)
Lemma dedup_distinct l : py_distinct (Py.dedup l).
Proof.
  induction l as [|x l IH]; simpl; [easy|].
  split; [apply in_list_filter_out | now apply py_distinct_filter].
Qed.

Lemma py_eqb_refl x : Py.eqb x x = true.
Proof.
  destruct x as [|b|z|s]; simpl; try reflexivity.
  - now destruct b.
  - apply Z.eqb_refl.
  - apply String.eqb_refl.
Qed.

Lemma py_eqb_sym x y : Py.eqb x y = Py.eqb y x.
Proof.
  destruct x as [|b|z|s], y as [|b'|z'|s']; simpl; try reflexivity.
  - now destruct b, b'.
  - apply Z.eqb_sym.
  - apply Z.eqb_sym.
  - apply Z.eqb_sym.
  - apply String.eqb_sym.
Qed.

Lemma py_eqb_trans x y z :
  Py.eqb x y = true -> Py.eqb y z = true -> Py.eqb x z = true.
Proof.
  destruct x as [|b|n|s], y as [|b'|n'|s'], z as [|b''|n''|s'']; simpl;
    try discriminate; try reflexivity;
    rewrite ?Z.eqb_eq, ?String.eqb_eq; try congruence;
    try (destruct b); try (destruct b'); try (destruct b''); simpl;
    try discriminate; try reflexivity; try lia; congruence.
Qed.

(** Every value of the list is still represented after [list(set(l))]. *)
Lemma dedup_represents x l :
  Py.in_list x l = true -> Py.in_list x (Py.dedup l) = true.
Proof.
  unfold Py.in_list. induction l as [|y l IH]; simpl; [discriminate|].
  intros H. destruct (Py.eqb x y) eqn:E; [reflexivity|]. simpl in H.
  specialize (IH H). simpl.
  apply existsb_exists in IH. destruct IH as (w & Hw & Hxw).
  apply existsb_exists. exists w. split; [|exact Hxw].
  apply List.filter_In. split; [exact Hw|].
  destruct (Py.eqb y w) eqn:Eyw; [|reflexivity].
  rewrite (py_eqb_sym x w) in Hxw.
  rewrite py_eqb_sym, (py_eqb_trans y w x Eyw Hxw) in E. discriminate.
Qed.

Lemma dedup_length l : (length (Py.dedup l) <= length l)%nat.
Proof.
  induction l as [|x l IH]; simpl; [lia|].
  pose proof (List.filter_length_le (fun y => negb (Py.eqb x y)) (Py.dedup l)). lia.
Qed.

(** X11.  The attack vectors derived from a finding hold no value twice,
    also when the method field repeats a vector that the type already
    gave; there are at most three of them, and a method that is present
    is always among them. *)
Theorem attack_vectors_distinct (finding : dict) :
  py_distinct (_identify_attack_vectors finding)
  /\ (length (_identify_attack_vectors finding) <= 3)%nat
  /\ (forall m, finding !! "method" = Some m ->
                Py.in_list m (_identify_attack_vectors finding) = true).
Proof.
  unfold _identify_attack_vectors. split; [apply dedup_distinct|]. split.
  - etransitivity; [apply dedup_length|].
    destruct (finding !! "type") as [ty|]; destruct (finding !! "method");
      repeat match goal with
             | |- context [if ?c then _ else _] => destruct c
             end; simpl; lia.
  - intros m ->. apply dedup_represents. unfold Py.in_list.
    rewrite existsb_app. simpl. rewrite py_eqb_refl. now rewrite orb_true_r.
Qed.

(** ** The attack-surface report *)

Lemma all_vector_suggestions_raises vs :
  (exists e, all_vector_suggestions vs = Raise e)
  <-> exists v, v ∈ vs /\ is_str v = false.
Proof.
  induction vs as [|v vs IH]; simpl.
  - split; [intros [e H]; discriminate | intros (v & H & _); inversion H].
  - destruct v as [|b|z|s]; simpl;
      try (split; [intros _; eexists; split; [constructor | reflexivity]
                  | intros _; now eexists]).
    assert (Hhere : exists here, (if Py.contains "注入" s
                                  then Ok ["使用参数化查询"; "实施输入验证"; "最小权限原则"]
                                  else if Py.contains "跨站" s
                                  then Ok ["实施CSP策略"; "使用安全的Cookie标志";
                                           "输入验证和输出编码"]
                                  else Ok []) = Ok here).
    { destruct (Py.contains "注入" s); [now eexists|].
      destruct (Py.contains "跨站" s); now eexists. }
    destruct Hhere as [here ->].
    destruct (all_vector_suggestions vs) as [rest|e].
    + split; [intros [e H]; discriminate|].
      intros (v & Hin & Hv). apply elem_of_cons in Hin. destruct Hin as [->|Hin].
      * discriminate.
      * apply proj2 in IH. destruct IH as [e H]; [now exists v | discriminate].
    + split; [|intros _; now eexists].
      intros _. destruct (proj1 IH) as (v & Hin & Hv); [now eexists|].
      exists v. split; [now apply elem_of_cons; right | exact Hv].
Qed.

Lemma dedup_subset x l : x ∈ Py.dedup l -> x ∈ l.
Proof.
  revert x. induction l as [|y l IH]; intros x; simpl; [easy|].
  intros H. apply elem_of_cons in H. destruct H as [->|H]; [constructor|].
  apply list_elem_of_In, List.filter_In in H. destruct H as [H _].
  apply elem_of_cons. right. now apply IH, list_elem_of_In.
Qed.

Lemma in_list_witness x l :
  Py.in_list x l = true -> exists w, w ∈ l /\ Py.eqb x w = true.
Proof.
  unfold Py.in_list. intros H. apply existsb_exists in H.
  destruct H as (w & Hw & E). exists w. now rewrite list_elem_of_In.
Qed.

Lemma elem_in_list x l : x ∈ l -> Py.in_list x l = true.
Proof.
  unfold Py.in_list. intros H. apply existsb_exists. exists x.
  split; [now apply list_elem_of_In | apply py_eqb_refl].
Qed.

Lemma py_eqb_is_str x y : Py.eqb x y = true -> is_str x = is_str y.
Proof. destruct x as [|b|z|s], y as [|b'|z'|s']; simpl; congruence. Qed.

Lemma report_vectors_nonstring ts :
  (exists v, v ∈ report_vectors ts /\ is_str v = false)
  <-> exists t v, t ∈ ts /\ is_high_risk t = true
                  /\ v ∈ t_attack_vectors t /\ is_str v = false.
Proof.
  unfold report_vectors. split.
  - intros (v & Hin & Hv). apply dedup_subset in Hin.
    apply list_elem_of_In, in_concat in Hin. destruct Hin as (l & Hl & Hvl).
    apply in_map_iff in Hl. destruct Hl as (t & <- & Ht).
    apply List.filter_In in Ht. destruct Ht as [Ht Hh].
    exists t, v. rewrite !list_elem_of_In. tauto.
  - intros (t & v & Ht & Hh & Hin & Hv).
    assert (Hc : v ∈ concat (map t_attack_vectors (List.filter is_high_risk ts))).
    { apply list_elem_of_In, in_concat. exists (t_attack_vectors t).
      split; [|now apply list_elem_of_In].
      apply in_map, List.filter_In. split; [now apply list_elem_of_In | exact Hh]. }
    apply elem_in_list, dedup_represents, in_list_witness in Hc.
    destruct Hc as (w & Hw & E). exists w. split; [exact Hw|].
    now rewrite <- (py_eqb_is_str v w E).
Qed.

(** X12.  The summarizer gives up, returning an empty result and storing
    nothing, exactly when a threat of level critical or high carries an
    attack vector that is not a string (a numeric method field is
    enough); the vectors of medium and low threats are never inspected. *)
Theorem report_fails_on_nonstring_vector (s : ThreatModeling) :
  generate_attack_surface_report s = (Ok None, s)
  <-> exists t v, t ∈ threats s /\ is_high_risk t = true
                  /\ v ∈ t_attack_vectors t /\ is_str v = false.
Proof.
  rewrite <- report_vectors_nonstring, <- all_vector_suggestions_raises.
  rewrite generate_attack_surface_report_spec.
  unfold _generate_mitigation_suggestions.
  destruct (all_vector_suggestions (report_vectors (threats s))) as [more|e].
  - split; [discriminate | intros [e H]; discriminate].
  - split; [intros _; now exists e | reflexivity].
Qed.

(** X13.  A second run of the summarizer on an unchanged object returns
    the report of the first run and leaves the object as the first run
    left it. *)
Theorem report_is_idempotent (s : ThreatModeling) :
  generate_attack_surface_report (snd (generate_attack_surface_report s))
  = generate_attack_surface_report s.
Proof.
  rewrite (generate_attack_surface_report_spec s).
  destruct (_generate_mitigation_suggestions
              (report_exposed_services (assets s)) (report_vectors (threats s)))
    as [suggestions|e] eqn:E.
  - cbn [snd]. rewrite generate_attack_surface_report_spec.
    cbn [assets threats results]. rewrite E. reflexivity.
  - cbn [snd]. rewrite generate_attack_surface_report_spec. now rewrite E.
Qed.

Lemma all_vector_suggestions_elem vs more sugg :
  all_vector_suggestions vs = Ok more ->
  sugg ∈ more
  <-> exists v l, v ∈ vs /\ vector_suggestions v = Ok l /\ sugg ∈ l.
Proof.
  revert more. induction vs as [|v vs IH]; intros more; simpl.
  - intros [= <-]. split; [intros H; inversion H | intros (v & l & H & _); inversion H].
  - destruct (vector_suggestions v) as [here|e] eqn:Eh; [|discriminate].
    destruct (all_vector_suggestions vs) as [rest|e]; [|discriminate].
    intros [= <-]. rewrite elem_of_app, (IH rest eq_refl). split.
    + intros [H|(w & l & Hw & El & Hl)].
      * exists v, here. repeat split; [constructor | exact Eh | exact H].
      * exists w, l. repeat split; [now apply elem_of_cons; right | exact El | exact Hl].
    + intros (w & l & Hw & El & Hl). apply elem_of_cons in Hw.
      destruct Hw as [->|Hw].
      * left. congruence.
      * right. now exists w, l.
Qed.

(** X14.  When the summarizer returns a report, its attack vectors hold
    no value twice and its mitigation suggestions no string twice; a
    suggestion is listed exactly when the rule of an exposed service or
    the rule of an attack vector of a critical or high threat gives it. *)
Theorem report_lists_are_sets (s : ThreatModeling) (rep : Report) :
  fst (generate_attack_surface_report s) = Ok (Some rep) ->
  py_distinct (attack_vectors rep)
  /\ NoDup (mitigation_suggestions rep)
  /\ forall sugg,
       sugg ∈ mitigation_suggestions rep
       <-> (exists sv, sv ∈ exposed_services rep /\ sugg ∈ service_suggestions sv)
           \/ (exists v l, v ∈ attack_vectors rep
                           /\ vector_suggestions v = Ok l /\ sugg ∈ l).
Proof.
  rewrite generate_attack_surface_report_spec.
  unfold _generate_mitigation_suggestions.
  destruct (all_vector_suggestions (report_vectors (threats s))) as [more|e] eqn:E;
    [|discriminate].
  cbn [fst]. intros [= <-]. cbn [attack_vectors mitigation_suggestions exposed_services].
  split; [apply dedup_distinct|]. split; [apply NoDup_remove_dups|].
  intros sugg. rewrite elem_of_remove_dups, elem_of_app.
  rewrite (all_vector_suggestions_elem _ _ sugg E).
  apply or_iff_compat_r. rewrite list_elem_of_In, in_concat. split.
  - intros (l & Hl & Hs). apply in_map_iff in Hl. destruct Hl as (sv & <- & Hsv).
    exists sv. now rewrite !list_elem_of_In.
  - intros (sv & Hsv & Hs). exists (service_suggestions sv).
    split; [apply in_map; now apply list_elem_of_In | now apply list_elem_of_In].
Qed.

Lemma filter_all {A} (p : A -> bool) (l : list A) :
  Forall (fun x => p x = true) l -> List.filter p l = l.
Proof.
  induction 1 as [|x l Hx _ IH]; simpl; [reflexivity|]. now rewrite Hx, IH.
Qed.

(** X15.  The two filters of the summarizer on assets never drop
    anything: every asset the classifier can produce is exposed and has a
    value of at least 8, so in every state the object can reach a report
    lists all assets of the inventory as critical and all their services
    as exposed. *)
Theorem report_covers_inventory (s : ThreatModeling) (rep : Report) :
  reachable s ->
  fst (generate_attack_surface_report s) = Ok (Some rep) ->
  critical_assets rep = map critical_entry (assets s)
  /\ exposed_services rep = concat (map a_services (assets s)).
Proof.
  intros Hr. apply reachable_wf in Hr. destruct Hr as [Ha _ _].
  rewrite generate_attack_surface_report_spec.
  destruct (_generate_mitigation_suggestions _ _) as [suggestions|e]; [|discriminate].
  cbn [fst]. intros [= <-]. cbn [critical_assets exposed_services].
  unfold report_critical_assets, report_exposed_services.
  rewrite !filter_all; [now split | |].
  - eapply List.Forall_impl; [|exact Ha]. intros a Hc. apply Hc.
  - eapply List.Forall_impl; [|exact Ha]. intros a Hc.
    apply classified_value in Hc. apply Z.leb_le. lia.
Qed.

(** ** What the classifier reads *)

(** X16.  The classifier reads the service, product and version of a
    record and nothing else: adding or changing any other key, the scan
    state of the port in particular, changes nothing, so a port reported
    as closed or filtered is classified like an open one and its asset is
    marked exposed. *)
Theorem classifier_ignores_other_keys
    (host : string) (port : pyval) (info : dict) (key : string) (v : pyval) :
  key <> "service" -> key <> "product" -> key <> "version" ->
  assets_of_record (host, port, <[key := v]> info)
  = assets_of_record (host, port, info).
Proof.
  intros Hs Hp Hv. unfold assets_of_record, classify_port, getitem, get_or.
  rewrite !lookup_insert_ne by assumption. reflexivity.
Qed.

(** ** The renderings of the result store *)

Lemma AssetType_value_inj t1 t2 :
  AssetType_value t1 = AssetType_value t2 -> t1 = t2.
Proof. destruct t1, t2; simpl; intros H; try reflexivity; discriminate. Qed.

Lemma ThreatLevel_value_inj l1 l2 :
  ThreatLevel_value l1 = ThreatLevel_value l2 -> l1 = l2.
Proof. destruct l1, l2; simpl; intros H; try reflexivity; discriminate. Qed.

Lemma map_injective {A B} (f : A -> B) :
  (forall x y, f x = f y -> x = y) ->
  forall l m, map f l = map f m -> l = m.
Proof.
  intros Hf. induction l as [|a l IH]; intros [|b m]; simpl; try discriminate;
    [reflexivity|].
  intros [= E1 E2]. f_equal; [now apply Hf | now apply IH].
Qed.

(** X17.  The dictionaries written to the result store lose nothing: two
    assets with the same rendering are the same asset, and two threats
    with the same rendering the same threat, so the inventory and the
    threat list can be read back from the exported lists. *)
Theorem renderings_are_injective :
  (forall a b, _asset_to_dict a = _asset_to_dict b -> a = b)
  /\ (forall t u, _threat_to_dict t = _threat_to_dict u -> t = u)
  /\ (forall l m, map _asset_to_dict l = map _asset_to_dict m -> l = m)
  /\ (forall l m, map _threat_to_dict l = map _threat_to_dict m -> l = m).
Proof.
  assert (Ha : forall a b, _asset_to_dict a = _asset_to_dict b -> a = b).
  { intros [] []. unfold _asset_to_dict. simpl. intros [= -> Ht -> -> -> ->].
    apply AssetType_value_inj in Ht. now subst. }
  assert (Ht : forall t u, _threat_to_dict t = _threat_to_dict u -> t = u).
  { intros [] []. unfold _threat_to_dict. simpl. intros [= -> Hl -> -> -> -> ->].
    apply ThreatLevel_value_inj in Hl. now subst. }
  split; [exact Ha|]. split; [exact Ht|]. split.
  - now apply map_injective.
  - now apply map_injective.
Qed.

Lemma stored_prefix_after c s :
  (forall l, r_assets (results s) = Some l ->
             exists rest, map _asset_to_dict (assets s) = (l ++ rest)%list) ->
  (forall l, r_threats (results s) = Some l ->
             exists rest, map _threat_to_dict (threats s) = (l ++ rest)%list) ->
  (forall l, r_assets (results (after c s)) = Some l ->
             exists rest, map _asset_to_dict (assets (after c s)) = (l ++ rest)%list)
  /\ (forall l, r_threats (results (after c s)) = Some l ->
                exists rest,
                  map _threat_to_dict (threats (after c s)) = (l ++ rest)%list).
Proof.
  intros Ha Ht. destruct c as [sr|sr| |]; unfold after.
  - destruct (first_malformed (records_of sr))
      as [Hok|(pre & bad & post & E & Hpre & Hbad)].
    + rewrite analyze_assets_completes by assumption. cbn. split.
      * intros l [= <-]. exists []. now rewrite app_nil_r.
      * exact Ht.
    + rewrite (analyze_assets_aborts sr pre bad post) by assumption. cbn. split.
      * intros l Hl. destruct (Ha l Hl) as [rest Hrest].
        exists (rest ++ map _asset_to_dict (assets_of pre))%list.
        now rewrite map_app, Hrest, app_assoc.
      * exact Ht.
  - rewrite identify_threats_spec.
    destruct (vuln_phase_outcome sr s) as (r & new & -> & _ & _).
    destruct r as [[]|e]; cbn.
    + split; [exact Ha|]. intros l [= <-]. exists []. now rewrite app_nil_r.
    + split; [exact Ha|]. intros l Hl. destruct (Ht l Hl) as [rest Hrest].
      exists (rest ++ map _threat_to_dict new)%list.
      now rewrite map_app, Hrest, app_assoc.
  - rewrite calculate_risk_scores_spec. cbn. now split.
  - rewrite generate_attack_surface_report_spec.
    destruct (_generate_mitigation_suggestions _ _); cbn; now split.
Qed.

(** X18.  The result store is never ahead of the object and never holds
    anything else: in every state the object can reach, the stored asset
    list, when there is one, renders a leading part of the inventory, and
    the stored threat list a leading part of the threat list; what is
    missing at the end is what failed runs appended. *)
Theorem store_is_a_stale_prefix (s : ThreatModeling) :
  reachable s ->
  (forall l, r_assets (results s) = Some l ->
             exists rest, map _asset_to_dict (assets s) = (l ++ rest)%list)
  /\ (forall l, r_threats (results s) = Some l ->
                exists rest, map _threat_to_dict (threats s) = (l ++ rest)%list).
Proof.
  induction 1 as [|c s _ [IHa IHt]].
  - split; intros l; discriminate.
  - now apply stored_prefix_after.
Qed.

(** * The port scanner and its readers *)

Lemma scan_port_complete port_info record :
  scan_port port_info = Ok record -> complete_record record.
Proof.
  unfold scan_port. destruct (port_info !! "state") as [st|]; [|discriminate].
  intros [= <-]. split; eexists; reflexivity.
Qed.

Lemma port_set_forall (P : pyval * dict -> Prop) port v t :
  (forall k, P (k, v)) -> Forall P t -> Forall P (port_set port v t).
Proof.
  intros Hv. induction 1 as [|[k w] r Hk Hr IH]; simpl.
  - apply List.Forall_cons; [apply Hv | apply List.Forall_nil].
  - destruct (Py.eqb k port); apply List.Forall_cons; auto.
Qed.

Lemma dict_set_forall {V} (P : string * V -> Prop) key v (d : list (string * V)) :
  (forall k, P (k, v)) -> Forall P d -> Forall P (dict_set key v d).
Proof.
  intros Hv. induction 1 as [|[k w] r Hk Hr IH]; simpl.
  - apply List.Forall_cons; [apply Hv | apply List.Forall_nil].
  - destruct (String.eqb k key); apply List.Forall_cons; auto.
Qed.

Lemma scan_ports_complete ports table :
  Forall (fun pi => complete_record (snd pi)) table ->
  Forall (fun pi => complete_record (snd pi)) (snd (scan_ports ports table)).
Proof.
  revert table. induction ports as [|[port port_info] ports IH]; intros table H; simpl.
  - exact H.
  - destruct (scan_port port_info) as [record|e] eqn:E; [|exact H].
    apply IH. apply port_set_forall; [|exact H].
    intros k. now apply scan_port_complete in E.
Qed.

Lemma scan_protocols_complete protos tables :
  complete_tables tables -> complete_tables (snd (scan_protocols protos tables)).
Proof.
  revert tables. induction protos as [|[proto ports] protos IH]; intros tables H; simpl.
  - exact H.
  - pose proof (scan_ports_complete ports [] (List.Forall_nil _)) as Hp.
    destruct (scan_ports ports []) as [outcome table]. cbn [snd] in Hp.
    assert (H' : complete_tables (dict_set proto table tables)).
    { apply dict_set_forall; [intros k; exact Hp | exact H]. }
    destruct outcome as [[]|e]; [now apply IH | exact H'].
Qed.

Lemma scan_hosts_complete hosts results :
  complete_results results -> complete_results (snd (scan_hosts hosts results)).
Proof.
  revert results. induction hosts as [|[host nh] hosts IH]; intros results H; simpl.
  - exact H.
  - pose proof (scan_protocols_complete (nh_protocols nh) [] (List.Forall_nil _)) as Hp.
    destruct (scan_protocols (nh_protocols nh) []) as [outcome tables]. cbn [snd] in Hp.
    match goal with
    | |- context [dict_set host ?entry results] =>
        assert (H' : complete_results (dict_set host entry results))
    end.
    { apply dict_set_forall; [intros k; exact Hp | exact H]. }
    destruct outcome as [[]|e]; [now apply IH | exact H'].
Qed.

Lemma scan_attempt_complete answer results :
  complete_results results -> complete_results (snd (scan_attempt answer results)).
Proof.
  intros H. unfold scan_attempt. destruct answer as [hosts|e]; [|exact H].
  pose proof (scan_hosts_complete hosts results H) as Hh.
  destruct (scan_hosts hosts results) as [[[]|e] r]; exact Hh.
Qed.

Lemma scan_complete first second third results :
  complete_results results ->
  complete_results (snd (scan first second third results)).
Proof.
  intros H. unfold scan.
  pose proof (scan_attempt_complete first results H) as H1.
  destruct (scan_attempt first results) as [[r1|e1] s1]; [exact H1|]. cbn [snd] in H1.
  pose proof (scan_attempt_complete second s1 H1) as H2.
  destruct (scan_attempt second s1) as [[r2|e2] s2]; [exact H2|]. cbn [snd] in H2.
  now apply scan_attempt_complete.
Qed.

Lemma scanned_complete results : scanned results -> complete_results results.
Proof.
  induction 1 as [|a b c r _ IH]; [apply List.Forall_nil | now apply scan_complete].
Qed.

Lemma open_in_table_complete proto table :
  Forall (fun pi => complete_record (snd pi)) table ->
  open_in_table proto table = Ok (open_records [(proto, table)]).
Proof.
  unfold open_records. simpl. rewrite app_nil_r.
  induction 1 as [|[port info] table [[st Hst] [sv Hsv]] _ IH];
    cbn [open_in_table List.filter map]; [reflexivity|].
  cbn [snd] in Hst, Hsv. rewrite Hst, Hsv.
  change (default VNone (Some st)) with st.
  destruct (Py.eqb st (VStr "open")); rewrite IH; cbn [map]; [|reflexivity].
  rewrite Hsv. reflexivity.
Qed.

Lemma open_in_host_complete tables :
  complete_tables tables -> open_in_host tables = Ok (open_records tables).
Proof.
  induction 1 as [|[proto table] tables Ht _ IH]; simpl; [reflexivity|].
  rewrite open_in_table_complete by exact Ht. rewrite IH.
  unfold open_records. simpl. now rewrite app_nil_r.
Qed.

Lemma get_open_ports_complete results :
  complete_results results ->
  get_open_ports results
  = Ok (map (fun '(host, sh) => (host, open_records (sh_protocols sh))) results).
Proof.
  induction 1 as [|[host sh] results Hh _ IH]; simpl; [reflexivity|].
  rewrite open_in_host_complete by exact Hh. now rewrite IH.
Qed.

Lemma complete_tables_have_service host tables :
  complete_tables tables ->
  Forall has_service
    (flat_map (fun '(proto, ports) =>
                 map (fun '(port, info) => (host, port, info)) ports)
              tables).
Proof.
  induction 1 as [|[proto table] tables Ht _ IH]; simpl; [apply List.Forall_nil|].
  apply Forall_app. split; [|exact IH]. clear IH. cbn [snd] in Ht.
  induction Ht as [|[port info] table [_ Hs] _ IH]; simpl; [apply List.Forall_nil|].
  apply List.Forall_cons; [exact Hs | exact IH].
Qed.

Lemma complete_has_service results rest :
  complete_results results ->
  Forall has_service (records_of (with_port_scan results rest)).
Proof.
  unfold records_of, with_port_scan, port_scan_of. cbn [port_scan].
  induction 1 as [|[host sh] results Hh _ IH]; simpl; [apply List.Forall_nil|].
  apply Forall_app. split; [|exact IH].
  now apply complete_tables_have_service.
Qed.

(** X19.  Whatever [nmap] answers and however often a scan fails or is
    retried, every record the scanner stores has its state and service
    keys.  So on the results of a scanner [get_open_ports] never raises,
    and a classification of these results never meets a malformed record:
    it completes and returns the grown inventory. *)
Theorem scanner_output_is_well_formed
    (results : ScannerResults) (rest : ScanResults) (s : ThreatModeling) :
  scanned results ->
  (exists listing, get_open_ports results = Ok listing)
  /\ Forall has_service (records_of (with_port_scan results rest))
  /\ fst (analyze_assets (with_port_scan results rest) s)
     = Ok (assets s ++ assets_of (records_of (with_port_scan results rest)))%list.
Proof.
  intros H. apply scanned_complete in H. split; [|split].
  - eexists. now apply get_open_ports_complete.
  - now apply complete_has_service.
  - rewrite analyze_assets_completes by now apply complete_has_service.
    reflexivity.
Qed.

(** X20.  On the results of a scanner [get_open_ports] returns one entry
    for every host, a host without an open port included, in the order
    of the results, and the entry of a host lists exactly the records
    whose state is [open], with their port, protocol and service. *)
Theorem open_ports_are_the_open_records (results : ScannerResults) :
  scanned results ->
  get_open_ports results
  = Ok (map (fun '(host, sh) => (host, open_records (sh_protocols sh))) results).
Proof. intros H. now apply get_open_ports_complete, scanned_complete. Qed.

Lemma dict_set_keys {V} key (v : V) d :
  exists new, map fst (dict_set key v d) = (map fst d ++ new)%list.
Proof.
  induction d as [|[k w] r [new IH]]; simpl.
  - now exists [key].
  - destruct (String.eqb k key); simpl.
    + exists []. now rewrite app_nil_r.
    + exists new. now rewrite IH.
Qed.

Lemma scan_hosts_keys hosts results :
  exists new,
    map fst (snd (scan_hosts hosts results)) = (map fst results ++ new)%list.
Proof.
  revert results. induction hosts as [|[host nh] hosts IH]; intros results; simpl.
  - exists []. now rewrite app_nil_r.
  - destruct (scan_protocols (nh_protocols nh) []) as [outcome tables].
    match goal with
    | |- context [dict_set host ?entry results] =>
        destruct (dict_set_keys host entry results) as [new1 H1];
        set (updated := dict_set host entry results) in *
    end.
    destruct outcome as [[]|e].
    + destruct (IH updated) as [new2 H2]. exists (new1 ++ new2)%list.
      now rewrite H2, H1, app_assoc.
    + now exists new1.
Qed.

Lemma scan_attempt_keys answer results :
  exists new,
    map fst (snd (scan_attempt answer results)) = (map fst results ++ new)%list.
Proof.
  unfold scan_attempt. destruct answer as [hosts|e].
  - destruct (scan_hosts_keys hosts results) as [new H].
    destruct (scan_hosts hosts results) as [[[]|e] r]; now exists new.
  - exists []. now rewrite app_nil_r.
Qed.

(** X21.  A scan never forgets a host: after a call of [scan], whether it
    returns or raises after its three attempts, the hosts that had an
    entry before still have one, in the same order, and new hosts come
    after them; a host that [nmap] no longer answers for keeps an entry. *)
Theorem scan_keeps_hosts (first second third : NmapAnswer) (results : ScannerResults) :
  exists new,
    map fst (snd (scan first second third results))
    = (map fst results ++ new)%list.
Proof.
  unfold scan.
  destruct (scan_attempt_keys first results) as [n1 H1].
  destruct (scan_attempt first results) as [[r1|e1] s1]; [now exists n1|].
  cbn [snd] in H1.
  destruct (scan_attempt_keys second s1) as [n2 H2].
  destruct (scan_attempt second s1) as [[r2|e2] s2]; cbn [snd] in H2.
  - exists (n1 ++ n2)%list. cbn [snd]. now rewrite H2, H1, app_assoc.
  - destruct (scan_attempt_keys third s2) as [n3 H3].
    exists (n1 ++ n2 ++ n3)%list. now rewrite H3, H2, H1, !app_assoc.
Qed.

(** * The vulnerability scanner and the threat identifier *)

Lemma in_modelled_web v :
  Py.in_strs v ["http"; "https"] = true -> Py.in_strs v modelled_service_names = true.
Proof.
  unfold Py.in_strs, modelled_service_names. simpl.
  destruct (Py.eqb v (VStr "http")), (Py.eqb v (VStr "https")); simpl;
    try discriminate; reflexivity.
Qed.

Lemma in_modelled_database v :
  Py.in_strs v ["mysql"; "mssql"; "postgresql"; "mongodb"] = true ->
  Py.in_strs v modelled_service_names = true.
Proof.
  unfold Py.in_strs, modelled_service_names. simpl.
  destruct (Py.eqb v (VStr "http")), (Py.eqb v (VStr "https")),
    (Py.eqb v (VStr "mysql")), (Py.eqb v (VStr "mssql")),
    (Py.eqb v (VStr "postgresql")), (Py.eqb v (VStr "mongodb")); simpl;
    try discriminate; reflexivity.
Qed.

Lemma assets_of_record_typed r l :
  assets_of_record r = Ok l -> Forall typed_by_service l.
Proof.
  intros H. pose proof (assets_of_record_classified r l H) as Hc.
  destruct r as [[host port] info]. unfold assets_of_record in H.
  destruct (info !! "service") as [service|] eqn:E; [|discriminate].
  injection H as <-. revert Hc. unfold classify_port, getitem. rewrite E.
  unfold bind, ret. cbv beta iota.
  destruct (Py.in_strs service ["http"; "https"]) eqn:Ew.
  { cbn. intros Hc. apply List.Forall_cons; [|apply List.Forall_nil].
    split; [now inversion Hc|]. intros _. exists service.
    split; [reflexivity | now apply in_modelled_web]. }
  destruct (Py.in_strs service ["mysql"; "mssql"; "postgresql"; "mongodb"]) eqn:Ed.
  { cbn. intros Hc. apply List.Forall_cons; [|apply List.Forall_nil].
    split; [now inversion Hc|]. intros _. exists service.
    split; [reflexivity | now apply in_modelled_database]. }
  destruct (_ || _)%bool.
  - cbn. intros Hc. apply List.Forall_cons; [|apply List.Forall_nil].
    split; [now inversion Hc|]. intros Hne. now destruct Hne.
  - intros _. apply List.Forall_nil.
Qed.

Lemma assets_of_typed rs : Forall typed_by_service (assets_of rs).
Proof.
  unfold assets_of. induction rs as [|r rs IH]; simpl; [apply List.Forall_nil|].
  apply Forall_app. split; [|exact IH].
  destruct (assets_of_record r) as [l|e] eqn:E;
    [now apply assets_of_record_typed in E | apply List.Forall_nil].
Qed.

Lemma reachable_typed s : reachable s -> Forall typed_by_service (assets s).
Proof.
  induction 1 as [|c s _ IH]; [apply List.Forall_nil|].
  destruct c as [sr|sr| |]; unfold after.
  - destruct (first_malformed (records_of sr))
      as [Hok|(pre & bad & post & E & Hpre & Hbad)].
    + rewrite analyze_assets_completes by assumption. cbn.
      apply Forall_app. split; [exact IH | apply assets_of_typed].
    + rewrite (analyze_assets_aborts sr pre bad post) by assumption. cbn.
      apply Forall_app. split; [exact IH | apply assets_of_typed].
  - rewrite identify_threats_spec.
    destruct (vuln_phase_outcome sr s) as (r & l & -> & _ & _).
    now destruct r as [[]|e].
  - now rewrite calculate_risk_scores_spec.
  - rewrite generate_attack_surface_report_spec.
    now destruct (_generate_mitigation_suggestions _ _).
Qed.

Lemma in_strs_label label names :
  Py.in_strs (VStr label) names = true -> label ∈ names.
Proof.
  unfold Py.in_strs. intros H. apply existsb_exists in H.
  destruct H as (n & Hn & E). simpl in E. apply String.eqb_eq in E. subst.
  now apply list_elem_of_In.
Qed.

(** A finding reaches an asset through the service name alone: filed
    under a label that is none of the six service names, it reaches
    domain controllers only. *)
Lemma unmodelled_label_reaches_domain_controllers all label findings t a :
  Forall typed_by_service all ->
  label ∉ modelled_service_names ->
  threats_of_record all (label, findings) = Ok [t] ->
  a ∈ all -> a_name a ∈ t_affected_assets t ->
  a_type a = DOMAIN_CONTROLLER.
Proof.
  intros Hall Hlabel Ht Ha Hin.
  assert (Haff : t_affected_assets t
                 = map a_name
                     (List.filter
                        (fun asset => Py.in_list (VStr label) (a_services asset)) all)).
  { revert Ht. destruct findings as [findings|v]; [|discriminate].
    unfold threats_of_record, threat_of_record, threat_of_findings.
    cbn [fst snd]. destruct (Py.truthy _); [|discriminate].
    unfold bind, lift.
    destruct (_determine_threat_level findings) as [level|e]; [|discriminate].
    destruct (_calculate_impact findings) as [impact|e]; [|discriminate].
    cbn. now intros [= <-]. }
  rewrite Haff in Hin. apply list_elem_of_In, in_map_iff in Hin.
  destruct Hin as (b & Hn & Hb). apply List.filter_In in Hb. destruct Hb as [Hb Hm].
  rewrite List.Forall_forall in Hall.
  destruct (Hall b Hb) as [Hcb Hsb].
  destruct (Hall a (proj1 (list_elem_of_In _ _) Ha)) as [Hca _].
  destruct (classified_same_name b a Hcb Hca Hn) as (Ety & _ & _).
  rewrite <- Ety. destruct (decide (a_type b = DOMAIN_CONTROLLER)) as [E|Hne];
    [exact E | exfalso].
  destruct (Hsb Hne) as (v & Hv & Hnames). rewrite Hv in Hm.
  unfold Py.in_list in Hm. simpl in Hm. rewrite orb_false_r in Hm.
  assert (Ev : v = VStr label).
  { destruct v as [|bv|z|sv]; simpl in Hm; try discriminate.
    apply String.eqb_eq in Hm. now subst. }
  subst v. now apply in_strs_label in Hnames.
Qed.

Lemma dict_set_key_elem {V} x key (v : V) d :
  x ∈ map fst (dict_set key v d) <-> x = key \/ x ∈ map fst d.
Proof.
  induction d as [|[k w] r IH]; simpl.
  - rewrite list_elem_of_singleton. split; [now left | intros [H|H]; [exact H | inversion H]].
  - destruct (String.eqb_spec k key) as [->|Hne]; simpl.
    + rewrite elem_of_cons. tauto.
    + rewrite !elem_of_cons, IH. tauto.
Qed.

Section ScanAll.

Variable target : string.
Variable run_nikto : Z -> dict.
Variable run_sqlmap : string -> dict.
Variable check_smb_vuln : dict.

Lemma scan_one_keys results port label :
  label ∈ map fst (scan_one target run_nikto run_sqlmap check_smb_vuln results port)
  <-> label ∈ map fst results
      \/ (label = "web_80" /\ port = 80)
      \/ (label = "web_443" /\ port = 443)
      \/ (label = "web_8080" /\ port = 8080)
      \/ (label = "smb" /\ port = 445).
Proof.
  unfold scan_one. cbn [existsb].
  destruct (Z.eqb_spec port 80) as [->|H80].
  { cbn. rewrite dict_set_key_elem. split; [intros [->|H]; auto 6 | ].
    intros [H|[[-> _]|[[_ H]|[[_ H]|[_ H]]]]]; try discriminate; auto. }
  destruct (Z.eqb_spec port 443) as [->|H443].
  { cbn. rewrite dict_set_key_elem. split; [intros [->|H]; auto 6 | ].
    intros [H|[[_ H]|[[-> _]|[[_ H]|[_ H]]]]]; try discriminate; auto. }
  destruct (Z.eqb_spec port 8080) as [->|H8080].
  { cbn. rewrite dict_set_key_elem. split; [intros [->|H]; auto 6 | ].
    intros [H|[[_ H]|[[_ H]|[[-> _]|[_ H]]]]]; try discriminate; auto. }
  cbn [orb]. destruct (Z.eqb_spec port 445) as [->|H445].
  { rewrite dict_set_key_elem. split; [intros [->|H]; auto 6 | ].
    intros [H|[[_ H]|[[_ H]|[[_ H]|[-> _]]]]]; try discriminate; auto. }
  split; [auto | intros [H|[[_ H]|[[_ H]|[[_ H]|[_ H]]]]]; congruence].
Qed.

Lemma scan_all_keys (ports : list Z) (results : VulnResults) (label : string) :
  label ∈ map fst (scan_all target run_nikto run_sqlmap check_smb_vuln ports results)
  <-> label ∈ map fst results
      \/ (label = "web_80" /\ 80 ∈ ports)
      \/ (label = "web_443" /\ 443 ∈ ports)
      \/ (label = "web_8080" /\ 8080 ∈ ports)
      \/ (label = "smb" /\ 445 ∈ ports).
Proof.
  unfold scan_all. revert results.
  induction ports as [|port ports IH]; intros results; cbn [fold_left].
  - split; [now left|].
    intros [H|[[_ H]|[[_ H]|[[_ H]|[_ H]]]]]; [exact H | inversion H..].
  - rewrite IH, scan_one_keys, !elem_of_cons. clear IH.
    split.
    + intros [[H|[[-> ->]|[[-> ->]|[[-> ->]|[-> ->]]]]]
             |[[-> H]|[[-> H]|[[-> H]|[-> H]]]]]; auto 10.
    + intros [H|[[-> [<-|H]]|[[-> [<-|H]]|[[-> [<-|H]]|[-> [<-|H]]]]]]; auto 10.
Qed.

(** X22.  [scan_all] scans ports 80, 443, 8080 and 445 and skips every
    other port of its list without a word: after it, the labels of the
    results are the labels of before together with [web_80], [web_443],
    [web_8080] for those of the three web ports that are in the list and
    [smb] when port 445 is. *)
Theorem scan_all_labels (ports : list Z) (results : VulnResults) (label : string) :
  label ∈ map fst (scan_all target run_nikto run_sqlmap check_smb_vuln ports results)
  <-> label ∈ map fst results
      \/ (label = "web_80" /\ 80 ∈ ports)
      \/ (label = "web_443" /\ 443 ∈ ports)
      \/ (label = "web_8080" /\ 8080 ∈ ports)
      \/ (label = "smb" /\ 445 ∈ ports).
Proof. apply scan_all_keys. Qed.

(** X23.  The labels under which a fresh vulnerability scanner files its
    findings are never the service name of a web server or a database,
    so a threat the identifier derives from such findings lists no web
    server and no database of the inventory: it can only list domain
    controllers. *)
Theorem scanner_findings_miss_web_assets
    (ports : list Z) (label : string) (findings : Findings)
    (s : ThreatModeling) (t : Threat) (a : Asset) :
  reachable s ->
  label ∈ map fst (scan_all target run_nikto run_sqlmap check_smb_vuln ports []) ->
  threats_of_record (assets s) (label, findings) = Ok [t] ->
  a ∈ assets s ->
  a_name a ∈ t_affected_assets t ->
  a_type a = DOMAIN_CONTROLLER.
Proof.
  intros Hr Hl Ht Ha Hin.
  apply (unmodelled_label_reaches_domain_controllers (assets s) label findings t a);
    auto using reachable_typed.
  apply scan_all_keys in Hl. unfold modelled_service_names.
  destruct Hl as [H|[[-> _]|[[-> _]|[[-> _]|[-> _]]]]]; [inversion H|..];
    intros Hm; repeat (apply elem_of_cons in Hm; destruct Hm as [Hm|Hm];
                       [discriminate|]); inversion Hm.
Qed.

End ScanAll.

(** * The executive summary and the threat model *)

Lemma count_tools_fails tools tool findings :
  (tool, findings) ∈ tools ->
  (forall c, exists e, count_finding findings c = Failed e) ->
  forall c, exists e, count_tools tools c = Failed e.
Proof.
  intros Hin Hf. induction tools as [|[t f] tools IH]; intros c; [inversion Hin|].
  simpl. apply elem_of_cons in Hin. destruct Hin as [[= <- <-]|Hin].
  - destruct (Hf c) as [e ->]. now exists e.
  - destruct (count_finding f c) as [c'|e]; [now apply IH | now exists e].
Qed.

Lemma count_services_fails vs r :
  r ∈ flat_map service_findings vs ->
  (forall c, exists e, count_finding (snd r) c = Failed e) ->
  forall c, exists e, count_services vs c = Failed e.
Proof.
  intros Hin Hf. induction vs as [|[service_type res] vs IH]; intros c;
    [inversion Hin|].
  simpl in Hin. apply elem_of_app in Hin. simpl.
  destruct res as [tools|v].
  - destruct Hin as [Hin|Hin].
    + apply list_elem_of_In, in_map_iff in Hin.
      destruct Hin as ([tool f] & <- & Hin). cbn [snd] in Hf.
      apply list_elem_of_In in Hin.
      destruct (count_tools_fails tools tool f Hin Hf c) as [e ->]. now exists e.
    + destruct (count_tools tools c) as [c'|e]; [now apply IH | now exists e].
  - destruct Hin as [Hin|Hin]; [inversion Hin | now apply IH].
Qed.

(** X24.  The summary has a counter for the severities critical, high,
    medium and low only.  One vulnerable finding whose severity is
    another name, which the threat identifier takes as level low, makes
    the whole summary fail with the error of the missing key, so the
    report is not written. *)
Theorem uncounted_severity_fails_summary
    (scan_results : ScanResults) (risk_scores : option (gmap string Q))
    (service_type : string) (findings : dict) (severity : string) :
  (service_type, FindingsDict findings) ∈ findings_of scan_results ->
  vulnerable (service_type, FindingsDict findings) = true ->
  findings !! "severity" = Some (VStr severity) ->
  Py.lower severity ∉ counted_severities ->
  (exists e, _format_executive_summary_html scan_results risk_scores = Failed e)
  /\ _determine_threat_level findings = Ok LOW.
Proof.
  intros Hin Hv Hs Hn. unfold vulnerable in Hv. cbn [snd] in Hv.
  assert (Hne : forall name, name ∈ counted_severities ->
                             String.eqb (Py.lower severity) name = false).
  { intros name Hname. apply String.eqb_neq. intros <-. now apply Hn. }
  assert (Hc : String.eqb (Py.lower severity) "critical" = false
               /\ String.eqb (Py.lower severity) "high" = false
               /\ String.eqb (Py.lower severity) "medium" = false
               /\ String.eqb (Py.lower severity) "low" = false).
  { unfold counted_severities in Hne.
    repeat split; apply Hne; repeat (constructor; try (now left)). }
  destruct Hc as (Hc1 & Hc2 & Hc3 & Hc4). split.
  - unfold _format_executive_summary_html, findings_of in *.
    destruct (vuln_scan scan_results) as [vs|]; [|inversion Hin].
    destruct (count_services_fails vs _ Hin) with (c := mkVulnCount 0 0 0 0)
      as [e ->]; [|now exists e].
    assert (Hg : get_or findings "severity" (VStr "medium") = VStr severity).
    { unfold get_or. now rewrite Hs. }
    intros c. cbn [snd]. unfold count_finding. rewrite Hv, Hg. cbn [Py.lower_of].
    unfold count_severity. rewrite Hc1, Hc2, Hc3, Hc4. now eexists.
  - unfold _determine_threat_level. rewrite Hs. cbn [Py.lower_of].
    now rewrite Hc1, Hc2, Hc3.
Qed.

Lemma size_risk_scores_of_nil ts : size (risk_scores_of [] ts) = 0%nat.
Proof. reflexivity. Qed.

(** X25.  The mean of the scores divides by their number: when the risk
    scorer has run on an empty inventory, the stored mapping is empty and
    the summary fails on the division by zero instead of leaving the
    assessment out. *)
Theorem empty_inventory_fails_summary (scan_results : ScanResults) (s : ThreatModeling) :
  assets s = [] ->
  (forall vs, vuln_scan scan_results = Some vs ->
              exists c, count_services vs (mkVulnCount 0 0 0 0) = Done c) ->
  _format_executive_summary_html scan_results
    (r_risk_scores (results (after CalculateRiskScores s)))
  = Failed ZeroDivisionError.
Proof.
  intros Ha Hc. unfold after. rewrite calculate_risk_scores_spec. cbn. rewrite Ha.
  unfold _format_executive_summary_html.
  destruct (vuln_scan scan_results) as [vs|].
  - destruct (Hc vs eq_refl) as [c ->]. reflexivity.
  - reflexivity.
Qed.

Lemma total_of_capped (l : list Q) :
  Forall (fun v => v = 100%Q) l ->
  (foldr Qplus 0 l == 100 * inject_Z (Z.of_nat (length l)))%Q.
Proof.
  induction 1 as [|v l -> _ IH].
  - reflexivity.
  - cbn [foldr length]. rewrite IH, Nat2Z.inj_succ, <- Z.add_1_r, inject_Z_plus.
    ring.
Qed.

Lemma capped_scores_level (scores : gmap string Q) :
  scores <> ∅ ->
  (forall name score, scores !! name = Some score -> score = 100%Q) ->
  overall_risk_level scores = Done "高危".
Proof.
  intros Hne Hall. unfold overall_risk_level.
  destruct (Nat.eqb_spec (size scores) 0) as [E|E].
  { now apply map_size_empty_iff in E. }
  assert (Ht : (values_total scores == 100 * inject_Z (Z.of_nat (size scores)))%Q).
  { unfold values_total. rewrite total_of_capped.
    - now rewrite length_map, length_map_to_list.
    - apply List.Forall_forall. intros v Hv. apply in_map_iff in Hv.
      destruct Hv as ([name score] & <- & Hin).
      apply list_elem_of_In, elem_of_map_to_list in Hin. now apply Hall in Hin. }
  assert (Hle : Qle_bool 75 (values_total scores / inject_Z (Z.of_nat (size scores)))
                = true).
  { apply Qle_bool_iff. rewrite Ht, Qdiv_mult_l; [discriminate|].
    change 0%Q with (inject_Z 0). rewrite inject_Z_injective. lia. }
  now rewrite Hle.
Qed.

(** X26.  Since every score the risk scorer can compute is 100, the
    overall level of the summary carries no information: in every state
    the object can reach with at least one asset, the level drawn from
    the stored scores is the highest one, and a summary without
    vulnerability scan reads as shown. *)
Theorem overall_level_is_always_high (s : ThreatModeling) :
  reachable s ->
  assets s <> [] ->
  exists scores,
    r_risk_scores (results (after CalculateRiskScores s)) = Some scores
    /\ overall_risk_level scores = Done "高危"
    /\ _format_executive_summary_html
         {| port_scan := None; vuln_scan := None; waf_bypass := None |} (Some scores)
       = Done ("<div class='executive-summary'><h3>整体风险评估</h3>"
               ++ "<p>目标系统的整体风险等级为 <span class='高危'>高危</span></p>"
               ++ "</div>").
Proof.
  intros Hr Hne. unfold after. rewrite calculate_risk_scores_spec. cbn.
  eexists. split; [reflexivity|].
  assert (Hl : overall_risk_level (risk_scores_of (assets s) (threats s))
               = Done "高危").
  { apply capped_scores_level.
    - destruct (assets s) as [|a all] eqn:E; [congruence|].
      intros Hempty.
      assert (Ha : a ∈ assets s) by (rewrite E; constructor).
      destruct (last_filter_some (fun b => String.eqb (a_name b) (a_name a))
                  (assets s) a Ha (String.eqb_refl _)) as [b Hb].
      pose proof (risk_scores_of_lookup (assets s) (threats s) (a_name a)) as Hlk.
      rewrite Hb, E, Hempty in Hlk. discriminate.
    - apply reachable_wf in Hr. destruct Hr as [Ha Ht _].
      intros name score H. apply risk_scores_of_entry in H.
      destruct H as (a & Hin & _ & ->). rewrite List.Forall_forall in Ha.
      apply classified_score_saturated;
        [now apply Ha, list_elem_of_In | now apply spec_threat_score_nonneg]. }
  split; [exact Hl|].
  unfold _format_executive_summary_html. cbn [vuln_scan]. now rewrite Hl.
Qed.

(** * The findings of port 445 and their readers *)

Lemma dict_set_elem_new {V} key (v : V) d : (key, v) ∈ dict_set key v d.
Proof.
  induction d as [|[k w] r IH]; simpl.
  - constructor.
  - destruct (String.eqb_spec k key) as [->|Hne].
    + constructor.
    + now apply list_elem_of_further.
Qed.

Lemma dict_set_elem_kept {V} k (w : V) key v d :
  (k, w) ∈ d -> k <> key \/ w = v -> (k, w) ∈ dict_set key v d.
Proof.
  intros Hin Hor. induction d as [|[k' w'] r IH]; [inversion Hin|]. simpl.
  apply elem_of_cons in Hin.
  destruct (String.eqb_spec k' key) as [->|Hne].
  - destruct Hin as [[= -> ->]|Hin].
    + destruct Hor as [Hk| ->]; [now destruct Hk | constructor].
    + now apply list_elem_of_further.
  - destruct Hin as [[= -> ->]|Hin].
    + constructor.
    + apply list_elem_of_further. now apply IH.
Qed.

(** A value that has no [get] anywhere in the findings stops the
    vulnerability loop, at that value or before it. *)
Lemma record_without_get_stops_loop rs r s :
  r ∈ rs -> has_get r = false ->
  exists e pre,
    for_each rs threat_of_record s
    = (Raise e, add_threats (threats_of (assets s) pre) s).
Proof.
  intros Hin Hg.
  destruct (first_raising (assets s) rs)
    as [Hok|(pre & bad & post & e & -> & Hpre & Hbad)].
  - rewrite List.Forall_forall in Hok. apply list_elem_of_In, Hok in Hin.
    rewrite no_get_raises in Hin by exact Hg. destruct Hin.
  - exists e, pre. now apply findings_abort.
Qed.

Section SmbReaders.

Variable target : string.
Variable run_nikto : Z -> dict.
Variable run_sqlmap : string -> dict.
Variable check_smb_vuln : dict.

Lemma scan_one_smb_kept results port :
  ("smb", SmbEntry check_smb_vuln) ∈ results ->
  ("smb", SmbEntry check_smb_vuln)
  ∈ scan_one target run_nikto run_sqlmap check_smb_vuln results port.
Proof.
  intros Hin. unfold scan_one. cbn [existsb].
  destruct (Z.eqb_spec port 80) as [->|H80].
  { cbn. apply dict_set_elem_kept; [exact Hin | left; discriminate]. }
  destruct (Z.eqb_spec port 443) as [->|H443].
  { cbn. apply dict_set_elem_kept; [exact Hin | left; discriminate]. }
  destruct (Z.eqb_spec port 8080) as [->|H8080].
  { cbn. apply dict_set_elem_kept; [exact Hin | left; discriminate]. }
  cbn [orb]. destruct (Z.eqb_spec port 445) as [->|H445]; [|exact Hin].
  apply dict_set_elem_kept; [exact Hin | now right].
Qed.

Lemma scan_all_smb_kept ports results :
  ("smb", SmbEntry check_smb_vuln) ∈ results ->
  ("smb", SmbEntry check_smb_vuln)
  ∈ scan_all target run_nikto run_sqlmap check_smb_vuln ports results.
Proof.
  unfold scan_all. revert results.
  induction ports as [|port ports IH]; intros results Hin; cbn [fold_left];
    [exact Hin|].
  now apply IH, scan_one_smb_kept.
Qed.

(** After a scan of port 445 the entry [smb] holds the findings of
    [check_smb_vuln] themselves. *)
Lemma scan_all_smb_entry ports results :
  445 ∈ ports ->
  ("smb", SmbEntry check_smb_vuln)
  ∈ scan_all target run_nikto run_sqlmap check_smb_vuln ports results.
Proof.
  unfold scan_all. revert results.
  induction ports as [|port ports IH]; intros results Hin; [inversion Hin|].
  cbn [fold_left]. apply elem_of_cons in Hin. destruct Hin as [<-|Hin].
  - apply scan_all_smb_kept. unfold scan_one. cbn. apply dict_set_elem_new.
  - now apply IH.
Qed.

(** Each field of the findings stored under [smb] is read as the
    findings of a tool. *)
Lemma smb_field_read_as_findings (results : VulnResults) key v :
  ("smb", SmbEntry check_smb_vuln) ∈ results ->
  check_smb_vuln !! key = Some v ->
  ("smb", NotFindings v) ∈ flat_map service_findings (vuln_scan_of results).
Proof.
  intros Hin Hk. apply list_elem_of_In, in_flat_map.
  exists ("smb", service_results_of (SmbEntry check_smb_vuln)). split.
  - unfold vuln_scan_of. apply in_map_iff.
    exists ("smb", SmbEntry check_smb_vuln). split; [reflexivity|].
    now apply list_elem_of_In.
  - cbn [service_findings service_results_of]. apply in_map_iff.
    exists (key, NotFindings v). split; [reflexivity|].
    apply in_map_iff. exists (key, v). split; [reflexivity|].
    now apply list_elem_of_In, elem_of_map_to_list.
Qed.

(** X27.  [scan_all] stores the findings of [check_smb_vuln] directly
    under [smb], where the readers of the results expect a dictionary
    from tool to findings.  After a scan of port 445 that returned
    findings, the threat identifier takes their fields for findings and
    fails at the lookup of [get]: whatever else the scan holds, the call
    returns an empty list, keeps only threats of findings read before the
    failure, adds no WAF threat and does not store the threat list; the
    executive summary of the report fails on the same results. *)
Theorem smb_results_fail_the_readers
    (ports : list Z) (stored : VulnResults) (rest : ScanResults)
    (risk_scores : option (gmap string Q)) (s : ThreatModeling) :
  445 ∈ ports ->
  check_smb_vuln <> ∅ ->
  let scan_results :=
    with_vuln_scan
      (scan_all target run_nikto run_sqlmap check_smb_vuln ports stored) rest in
  (exists found,
      identify_threats scan_results s
      = (Ok [], {| results := results s;
                   assets := assets s;
                   threats := (threats s ++ found)%list |})
      /\ Forall vuln_name found)
  /\ exists e, _format_executive_summary_html scan_results risk_scores = Failed e.
Proof.
  intros Hport Hne scan_results.
  destruct (map_choose _ Hne) as (key & v & Hk).
  assert (Hin : ("smb", NotFindings v) ∈ findings_of scan_results).
  { apply smb_field_read_as_findings with (key := key); [|exact Hk].
    now apply scan_all_smb_entry. }
  split.
  - destruct (record_without_get_stops_loop _ _ s Hin eq_refl) as (e & pre & E).
    rewrite <- vuln_phase_findings in E.
    destruct (vuln_phase_outcome scan_results s) as (r & found & E' & _ & Hn).
    assert (Hr : r = Raise e) by (rewrite E in E'; congruence). subst r.
    exists found. split; [|exact Hn].
    rewrite identify_threats_spec, E'. reflexivity.
  - unfold _format_executive_summary_html. cbn [vuln_scan scan_results with_vuln_scan].
    destruct (count_services_fails _ _ Hin) with (c := mkVulnCount 0 0 0 0)
      as [e ->]; [|now exists e].
    intros c. now eexists.
Qed.

End SmbReaders.

(** * Concrete runs of the further properties *)

Lemma every_score_is_capped_witness :
  exists scores s',
    calculate_risk_scores sample_state = (Ok scores, s')
    /\ forall name score, scores !! name = Some score -> score = 100%Q.
Proof. exact (every_score_is_capped sample_state sample_state_reachable). Defined.

Lemma exposed_scores_no_lower_witness :
  (asset_risk [] (mail_asset false) <= asset_risk [] (mail_asset true))%Q.
Proof.
  apply (exposed_scores_no_lower [] (mail_asset false) (mail_asset true)).
  - reflexivity.
  - reflexivity.
  - reflexivity.
  - reflexivity.
  - simpl. lia.
Defined.

Lemma batch_without_malformed_ok :
  Forall has_service (records_of batch_without_malformed).
Proof.
  repeat first [apply List.Forall_nil | apply List.Forall_cons];
    eexists; reflexivity.
Qed.

Lemma reclassification_duplicates_witness :
  map a_name
      (assets (snd (analyze_assets batch_without_malformed
                      (snd (analyze_assets batch_without_malformed init)))))
  = ["Web Server (10.0.0.5:443)"; "Domain Controller (10.0.0.5)";
     "Web Server (10.0.0.5:443)"; "Domain Controller (10.0.0.5)"].
Proof.
  rewrite (reclassification_duplicates batch_without_malformed init
             batch_without_malformed_ok).
  reflexivity.
Defined.

Lemma next_batch_publishes_leftovers_witness :
  let s2 := snd (analyze_assets batch_without_malformed
                   (snd (analyze_assets batch_with_malformed init))) in
  assets s2
  = (assets init ++ assets_of [("10.0.0.5", VInt 443, https_record)]
                 ++ assets_of (records_of batch_without_malformed))%list
  /\ r_assets (results s2) = Some (map _asset_to_dict (assets s2)).
Proof.
  apply (next_batch_publishes_leftovers batch_with_malformed batch_without_malformed
           [("10.0.0.5", VInt 443, https_record)]
           [("10.0.0.5", VInt 636, ldap_record)]
           ("10.0.0.5", VInt 8080, nameless_record) init).
  - reflexivity.
  - apply List.Forall_cons; [|apply List.Forall_nil]. eexists. reflexivity.
  - reflexivity.
  - exact batch_without_malformed_ok.
Defined.

Lemma threats_reference_inventory_witness :
  exists a, a ∈ assets sample_state /\ a_name a = "Web Server (10.0.0.5:443)".
Proof.
  apply (threats_reference_inventory sample_state sample_state_reachable
           (waf_threat (assets sample_inventory)) "Web Server (10.0.0.5:443)").
  - vm_compute. repeat constructor.
  - vm_compute. repeat constructor.
Defined.

Lemma nothing_vulnerable_nothing_added_witness :
  identify_threats harmless_scan sample_state
  = (Ok (threats sample_state),
     {| results := set_r_threats (map _threat_to_dict (threats sample_state))
                     (results sample_state);
        assets := assets sample_state;
        threats := threats sample_state |})
  /\ identify_threats smb_scan_without_waf sample_state = (Ok [], sample_state).
Proof.
  split.
  - apply (nothing_vulnerable_nothing_added harmless_scan sample_state).
    + repeat first [apply List.Forall_nil | apply List.Forall_cons]; reflexivity.
    + reflexivity.
  - apply (nothing_vulnerable_nothing_added smb_scan_without_waf sample_state).
    + assert (E : forallb (fun r => negb (vulnerable r))
                    (findings_of smb_scan_without_waf) = true)
        by (vm_compute; reflexivity).
      apply List.Forall_forall. intros r Hr.
      rewrite forallb_forall in E. apply E in Hr. now destruct (vulnerable r).
    + reflexivity.
Defined.

Lemma raising_finding_stops_identifier_witness :
  identify_threats numeric_severity_scan sample_inventory
  = (Ok [], {| results := results sample_inventory;
               assets := assets sample_inventory;
               threats := (threats sample_inventory
                           ++ threats_of (assets sample_inventory) [])%list |}).
Proof.
  apply (raising_finding_stops_identifier numeric_severity_scan
           [] [] ("web_80", FindingsDict numeric_severity_findings)
           (AttributeError "lower")
           sample_inventory).
  - reflexivity.
  - apply List.Forall_nil.
  - reflexivity.
Defined.

Lemma report_lists_are_sets_witness :
  exists rep,
    fst (generate_attack_surface_report sample_state) = Ok (Some rep)
    /\ py_distinct (attack_vectors rep)
    /\ NoDup (mitigation_suggestions rep).
Proof.
  destruct (fst (generate_attack_surface_report sample_state)) as [[rep|]|e] eqn:E;
    [|vm_compute in E; discriminate..].
  exists rep. split; [reflexivity|].
  destruct (report_lists_are_sets sample_state rep E) as (Hv & Hm & _).
  now split.
Defined.

Lemma report_covers_inventory_witness :
  exists rep,
    fst (generate_attack_surface_report sample_state) = Ok (Some rep)
    /\ critical_assets rep = map critical_entry (assets sample_state)
    /\ exposed_services rep = concat (map a_services (assets sample_state)).
Proof.
  destruct (fst (generate_attack_surface_report sample_state)) as [[rep|]|e] eqn:E;
    [|vm_compute in E; discriminate..].
  exists rep. split; [reflexivity|].
  exact (report_covers_inventory sample_state rep sample_state_reachable E).
Defined.

Lemma classifier_ignores_other_keys_witness :
  assets_of_record ("10.0.0.5", VInt 443, <["state" := VStr "closed"]> https_record)
  = assets_of_record ("10.0.0.5", VInt 443, https_record).
Proof.
  apply (classifier_ignores_other_keys "10.0.0.5" (VInt 443) https_record
           "state" (VStr "closed")); discriminate.
Defined.

Lemma store_is_a_stale_prefix_witness :
  (forall l, r_assets (results sample_state) = Some l ->
             exists rest, map _asset_to_dict (assets sample_state) = (l ++ rest)%list)
  /\ (forall l, r_threats (results sample_state) = Some l ->
                exists rest,
                  map _threat_to_dict (threats sample_state) = (l ++ rest)%list).
Proof. exact (store_is_a_stale_prefix sample_state sample_state_reachable). Defined.

Lemma sample_scanner_results_scanned : scanned sample_scanner_results.
Proof. apply scanned_scan, scanned_init. Qed.

Lemma scanner_output_is_well_formed_witness :
  (exists listing, get_open_ports sample_scanner_results = Ok listing)
  /\ Forall has_service (records_of (with_port_scan sample_scanner_results empty_scan))
  /\ fst (analyze_assets (with_port_scan sample_scanner_results empty_scan) init)
     = Ok (assets init
           ++ assets_of (records_of (with_port_scan sample_scanner_results empty_scan)))%list.
Proof.
  exact (scanner_output_is_well_formed sample_scanner_results empty_scan init
           sample_scanner_results_scanned).
Defined.

Lemma open_ports_are_the_open_records_witness :
  get_open_ports sample_scanner_results
  = Ok [("10.0.0.5",
         [{| op_port := VInt 443; op_protocol := "tcp"; op_service := VStr "https" |}])].
Proof.
  rewrite (open_ports_are_the_open_records sample_scanner_results
             sample_scanner_results_scanned).
  reflexivity.
Defined.

Lemma smb_controller_state_reachable : reachable smb_controller_state.
Proof. apply reachable_call, reachable_init. Qed.

Lemma scanner_findings_miss_web_assets_witness :
  exists t a,
    threats_of_record (assets smb_controller_state)
      ("smb", FindingsDict (<["vulnerable" := VBool true]> ∅)) = Ok [t]
    /\ a ∈ assets smb_controller_state
    /\ a_name a ∈ t_affected_assets t
    /\ a_type a = DOMAIN_CONTROLLER.
Proof.
  destruct (threats_of_record (assets smb_controller_state)
              ("smb", FindingsDict (<["vulnerable" := VBool true]> ∅)))
    as [[|t []]|e] eqn:Et;
    try (vm_compute in Et; discriminate).
  destruct (assets smb_controller_state) as [|a []] eqn:Ea;
    try (vm_compute in Ea; discriminate).
  assert (Hin : a ∈ assets smb_controller_state) by (rewrite Ea; constructor).
  assert (Hn : a_name a ∈ t_affected_assets t).
  { vm_compute in Et, Ea. injection Et as <-. injection Ea as <-.
    vm_compute. constructor. }
  exists t, a. split; [reflexivity|]. split; [rewrite <- Ea; exact Hin|].
  split; [exact Hn|].
  apply (scanner_findings_miss_web_assets "10.0.0.5" (fun _ => ∅) (fun _ => ∅) ∅
           [445] "smb" (FindingsDict (<["vulnerable" := VBool true]> ∅))
           smb_controller_state t a smb_controller_state_reachable).
  - vm_compute. constructor.
  - rewrite Ea. exact Et.
  - exact Hin.
  - exact Hn.
Defined.

Lemma uncounted_severity_fails_summary_witness :
  (exists e, _format_executive_summary_html info_severity_scan None = Failed e)
  /\ _determine_threat_level info_severity_finding = Ok LOW.
Proof.
  apply (uncounted_severity_fails_summary info_severity_scan None
           "web_80" info_severity_finding "info").
  - vm_compute. constructor.
  - reflexivity.
  - reflexivity.
  - unfold counted_severities. intros H.
    repeat (apply elem_of_cons in H; destruct H as [H|H]; [discriminate|]).
    inversion H.
Defined.

Lemma empty_inventory_fails_summary_witness :
  _format_executive_summary_html empty_scan
    (r_risk_scores (results (after CalculateRiskScores init)))
  = Failed ZeroDivisionError.
Proof.
  apply (empty_inventory_fails_summary empty_scan init).
  - reflexivity.
  - intros vs H. discriminate.
Defined.

Lemma overall_level_is_always_high_witness :
  exists scores,
    r_risk_scores (results (after CalculateRiskScores sample_state)) = Some scores
    /\ overall_risk_level scores = Done "高危".
Proof.
  destruct (overall_level_is_always_high sample_state sample_state_reachable)
    as (scores & Hs & Hl & _).
  - vm_compute. discriminate.
  - now exists scores.
Defined.

Lemma smb_results_fail_the_readers_witness :
  waf_detected smb_scan = true
  /\ (exists found,
         identify_threats smb_scan sample_inventory
         = (Ok [], {| results := results sample_inventory;
                      assets := assets sample_inventory;
                      threats := (threats sample_inventory ++ found)%list |})
         /\ Forall vuln_name found)
  /\ exists e, _format_executive_summary_html smb_scan None = Failed e.
Proof.
  split; [reflexivity|].
  apply (smb_results_fail_the_readers "10.0.0.5" (fun _ => ∅) (fun _ => ∅)
           smb_findings [445] []
           {| port_scan := None;
              vuln_scan := None;
              waf_bypass :=
                Some {| waf_info := Some (<["detected" := VBool true]> ∅) |} |}
           None sample_inventory).
  - constructor.
  - intros H. apply (f_equal (fun m => m !! "vulnerable")) in H.
    vm_compute in H. discriminate.
Defined.

(** The run of the witness, evaluated: nothing is added and nothing is
    stored, although a WAF was detected. *)
Example smb_scan_leaves_no_trace :
  identify_threats smb_scan sample_inventory = (Ok [], sample_inventory).
Proof. vm_compute. reflexivity. Qed.
